(** * Stemify Sieve API (python-api/main.py): shallow embedding and properties

    The service is a FastAPI adapter around two external collaborators, the
    Sieve "demucs" function and a Supabase storage bucket.  The pure pieces
    (stem naming, parameter derivation, owner extraction) are embedded as
    total functions; the request handler is embedded in a small state and
    exception monad whose state records the calls made to the collaborators.
    Calls to the logger have no effect on the response and are left out. *)

From Stdlib Require Import ZArith String Ascii List Bool Lia DecimalString.
From Stdlib Require Import Floats.PrimFloat.
From Stdlib Require DecimalZ.
From Stdlib Require Import Sorted.
Import ListNotations.
Open Scope string_scope.
Open Scope Z_scope.

(** ** Python values and primitives used by main.py *)

Module Py.

(** A raised exception: its class name and [str(e)]. *)
Record exn : Type := Raise { exn_class : string; exn_str : string }.

(** Outcome of an expression that may raise. *)
Inductive res (A : Type) : Type :=
| Ok (a : A)
| Err (e : exn).
Arguments Ok {A} a.
Arguments Err {A} e.

(** [str(n)] for an [int]. *)
Definition str_of_int (n : Z) : string :=
  NilZero.string_of_int (Z.to_int n).

(** [len(l)] as a Python [int]. *)
Definition len {A : Type} (l : list A) : Z := Z.of_nat (length l).

(** [l[i]]: negative indices count from the end, anything outside
    [-len l, len l) raises [IndexError]. *)
Definition getitem {A : Type} (l : list A) (i : Z) : res A :=
  let j := if i <? 0 then len l + i else i in
  if (j <? 0) || (len l <=? j) then
    Err (Raise "IndexError" "list index out of range")
  else
    match nth_error l (Z.to_nat j) with
    | Some a => Ok a
    | None => Err (Raise "IndexError" "list index out of range")
    end.

(** [x in l] for a list of strings. *)
Fixpoint contains (x : string) (l : list string) : bool :=
  match l with
  | [] => false
  | y :: l' => String.eqb x y || contains x l'
  end.

(** Truthiness of a [str] and of an [Optional[str]]: the empty string
    and [None] are falsy. *)
Definition truthy_str (s : string) : bool := negb (String.eqb s "").

Definition truthy_opt_str (o : option string) : bool :=
  match o with
  | Some s => truthy_str s
  | None => false
  end.

(** [s.split(sep)] for a one-character separator: the pieces between
    occurrences of [sep], empty pieces kept, never the empty list. *)
Fixpoint split_aux (sep : ascii) (s : string) (cur : string) : list string :=
  match s with
  | EmptyString => [cur]
  | String c s' =>
      if Ascii.eqb c sep then cur :: split_aux sep s' ""
      else split_aux sep s' (cur ++ String c "")
  end.

Definition split (sep : ascii) (s : string) : list string :=
  split_aux sep s "".

(** [enumerate(l)], positions counted from [start]. *)
Fixpoint enumerate_from {A : Type} (start : nat) (l : list A) : list (nat * A) :=
  match l with
  | [] => []
  | a :: l' => (start, a) :: enumerate_from (S start) l'
  end.

Definition enumerate {A : Type} (l : list A) : list (nat * A) :=
  enumerate_from 0 l.

(** [s.endswith(c)] and [s.rstrip(c)] for a one-character argument. *)
Fixpoint endswith (c : ascii) (s : string) : bool :=
  match s with
  | EmptyString => false
  | String a EmptyString => Ascii.eqb a c
  | String _ s' => endswith c s'
  end.

Fixpoint rstrip (c : ascii) (s : string) : string :=
  match s with
  | EmptyString => EmptyString
  | String a s' =>
      match rstrip c s' with
      | EmptyString => if Ascii.eqb a c then EmptyString else String a EmptyString
      | r => String a r
      end
  end.

(** [d.get(k)] on a dictionary with string keys and values. *)
Fixpoint dict_get (d : list (string * string)) (k : string) : option string :=
  match d with
  | [] => None
  | (k', v) :: d' => if String.eqb k k' then Some v else dict_get d' k
  end.

(** [a or b] on [Optional[str]] values. *)
Definition py_or (a b : option string) : option string :=
  if truthy_opt_str a then a else b.

End Py.

Import Py.

(** ** Stem Namer: [get_stem_name] (main.py, lines 244-262) *)

Definition stem_names_4 : list string := ["vocals"; "drums"; "bass"; "other"].

Definition stem_names_6 : list string :=
  ["vocals"; "drums"; "bass"; "other"; "guitar"; "piano"].

Definition get_stem_name (index : Z) (two_stems model : string) : res string :=
  if negb (String.eqb two_stems "None") then
    if index =? 0 then Ok two_stems
    else Ok ("no_" ++ two_stems)
  else if String.eqb model "htdemucs_6s" then
    if index <? len stem_names_6 then getitem stem_names_6 index
    else Ok ("stem_" ++ str_of_int index)
  else
    if index <? len stem_names_4 then getitem stem_names_4 index
    else Ok ("stem_" ++ str_of_int index).

(** ** Request and response values (main.py, lines 43-51 and 204-238) *)

Module SeparationRequest.
Record t : Type := Build {
  audio_url : string;
  model : string;
  two_stems : string;
  overlap : float;
  shifts : Z;
  audio_format : string;
  selected_stems : option (list string);
  quality : option string
}.

(** The pydantic defaults: every field but [audio_url] is optional. *)
Definition defaults (audio_url : string) : t :=
  Build audio_url "htdemucs_ft" "None" 0.25%float 0 "wav" None (Some "standard").
End SeparationRequest.

(** The handler's four local variables after lines 138-161. *)
Module Resolved.
Record t : Type := Build {
  model : string;
  two_stems : string;
  overlap : float;
  shifts : Z
}.
End Resolved.

(** The ["parameters"] object of the response. *)
Module Parameters.
Record t : Type := Build {
  model : string;
  two_stems : string;
  overlap : float;
  shifts : Z;
  audio_format : string
}.
End Parameters.

(** One entry of ["output_files"]. *)
Module OutputFile.
Record t : Type := Build {
  index : Z;
  url : option string;
  stem_name : string
}.
End OutputFile.

Module SeparationResponse.
Record t : Type := Build {
  status : string;
  message : string;
  output_files : list OutputFile.t;
  parameters : Parameters.t
}.
End SeparationResponse.

(** What FastAPI sends back: the returned object (status 200) or the
    [HTTPException] raised by the handler. *)
Inductive HandlerResult : Type :=
| Returned (body : SeparationResponse.t)
| HTTPException (status_code : Z) (detail : string).

Definition http_status (r : HandlerResult) : Z :=
  match r with
  | Returned _ => 200
  | HTTPException status_code _ => status_code
  end.

(** ** Owner extraction (main.py, lines 121-129) *)

Fixpoint scan_user_id (url_parts : list string) (it : list (nat * string))
  : res (option string) :=
  match it with
  | [] => Ok None
  | (i, part) :: it' =>
      if String.eqb part "audio-files" && (Z.of_nat i + 1 <? len url_parts) then
        match getitem url_parts (Z.of_nat i + 1) with
        | Ok u => Ok (Some u)
        | Err e => Err e
        end
      else scan_user_id url_parts it'
  end.

Definition extract_user_id (audio_url : string) : res string :=
  let url_parts := split "/" audio_url in
  match scan_user_id url_parts (enumerate url_parts) with
  | Ok user_id =>
      Ok (match user_id with
          | Some u => if truthy_str u then u else "anonymous"
          | None => "anonymous"
          end)
  | Err e => Err e
  end.

(** ** Parameter Resolver (main.py, lines 138-161) *)

Definition single_stem_names : list string :=
  ["vocals"; "drums"; "bass"; "other"; "guitar"; "piano"].

Definition quality_is_pro (quality : option string) : bool :=
  match quality with
  | Some q => String.eqb q "pro"
  | None => false
  end.

(** The test of line 149: a non-empty selection naming guitar or piano. *)
Definition wants_six_stem (selected_stems : option (list string)) : bool :=
  match selected_stems with
  | Some (s :: l) => contains "guitar" (s :: l) || contains "piano" (s :: l)
  | _ => false
  end.

Definition resolve (request : SeparationRequest.t) : Resolved.t :=
  let model := SeparationRequest.model request in
  let two_stems := SeparationRequest.two_stems request in
  let selected_stems := SeparationRequest.selected_stems request in
  let two_stems :=
    match selected_stems with
    | Some [stem] => if contains stem single_stem_names then stem else two_stems
    | _ => two_stems
    end in
  let model := if wants_six_stem selected_stems then "htdemucs_6s" else model in
  if quality_is_pro (SeparationRequest.quality request) then
    let model := if String.eqb model "htdemucs" then "htdemucs_ft" else model in
    Resolved.Build model two_stems 0.25%float 1
  else
    Resolved.Build model two_stems
      (SeparationRequest.overlap request) (SeparationRequest.shifts request).

(** ** The collaborators and the calls made to them *)

(** Arguments of [demucs.run] (main.py, lines 171-178); [file] is the URL
    the [sieve.File] was built from. *)
Module DemucsArgs.
Record t : Type := Build {
  file : string;
  model : string;
  two_stems : string;
  overlap : float;
  shifts : Z;
  audio_format : string
}.
End DemucsArgs.

(** An object yielded by the result of [demucs.run]: it has a [path]
    attribute (a string or [None]) or it has none.  Reading [path] is taken
    to return: an object whose [path] raises when read is not
    represented. *)
Inductive OutputObj : Type :=
| WithPath (path : option string)
| WithoutPath.

(** The value [demucs.run] returns: it has [__iter__] or it has not.  An
    iterable is given by the objects it yields when walked to its end: a
    returned object whose iteration raises part-way is not represented. *)
Inductive RunResult : Type :=
| Iterable (items : list OutputObj)
| NotIterable.

(** What [get_public_url] returns: the URL itself in newer clients, a
    dictionary in older ones. *)
Inductive PublicUrl : Type :=
| UrlStr (s : string)
| UrlDict (d : list (string * string)).

(** Calls that leave the process, in the order they are made (most recent
    first).  [EvUploadCall] marks an invocation of
    [upload_file_to_supabase]. *)
Inductive event : Type :=
| EvSieveFile (url : string)
| EvFunctionGet (name : string)
| EvDemucsRun (args : DemucsArgs.t)
| EvUploadCall (file_path stem_name user_id : string)
| EvStorageUpload (bucket storage_path content content_type cache_control : string)
| EvGetPublicUrl (bucket storage_path : string)
| EvRemove (file_path : string).

Definition trace : Type := list event.

(** The Supabase storage client.  Its answers may depend on the calls made
    so far. *)
Record Client : Type := {
  storage_upload : trace -> string -> string -> string -> option exn;
  storage_get_public_url : trace -> string -> string -> res PublicUrl
}.

(** Everything outside the handler.  [None] from a call that returns
    nothing of interest means it did not raise.  The local disk is read
    while the outputs are processed and modified only afterwards, so
    [os_path_exists] is the disk as the processing loop sees it. *)
Record World : Type := {
  supabase : option Client;
  uuid4 : trace -> string;
  open_read : trace -> string -> res string;
  os_path_exists : string -> bool;
  os_remove : trace -> string -> option exn;
  sieve_File : string -> option exn;
  sieve_function_get : string -> option exn;
  demucs_run : DemucsArgs.t -> res RunResult
}.

(** Module start-up (main.py, lines 24-32): the client exists only when a
    service key other than the placeholder is configured. *)
Definition supabase_init (getenv : string -> option string)
    (create_client : string -> string -> Client) : option Client :=
  let supabase_url :=
    match getenv "SUPABASE_URL" with
    | Some v => v
    | None => "https://wqzretaqqqtzxdtoljqr.supabase.co"
    end in
  let supabase_key :=
    match getenv "SUPABASE_SERVICE_ROLE_KEY" with
    | Some v => v
    | None => ""
    end in
  if negb (truthy_str supabase_key)
     || String.eqb supabase_key "your_service_role_key_here"
  then None
  else Some (create_client supabase_url supabase_key).

(** ** The handler monad: a trace of calls, and exceptions *)

Definition M (A : Type) : Type := trace -> res A * trace.

Definition ret {A : Type} (a : A) : M A := fun t => (Ok a, t).

Definition bind {A B : Type} (m : M A) (f : A -> M B) : M B :=
  fun t =>
    match m t with
    | (Ok a, t') => f a t'
    | (Err e, t') => (Err e, t')
    end.

Definition emit (ev : event) : M unit := fun t => (Ok tt, ev :: t).

(** A value that depends on the calls made so far. *)
Definition ask {A : Type} (f : trace -> A) : M A := fun t => (Ok (f t), t).

(** A call that returns or raises, answered from the calls made so far. *)
Definition call {A : Type} (f : trace -> res A) : M A := fun t => (f t, t).

(** An expression that returns or raises. *)
Definition lift {A : Type} (r : res A) : M A := call (fun _ => r).

(** A call whose return value is not used but which may raise. *)
Definition call_ (f : trace -> option exn) : M unit :=
  fun t =>
    match f t with
    | None => (Ok tt, t)
    | Some e => (Err e, t)
    end.

Definition check (o : option exn) : M unit := call_ (fun _ => o).

(** [try: m  except Exception as e: h e]. *)
Definition try_except {A : Type} (m : M A) (h : exn -> M A) : M A :=
  fun t =>
    match m t with
    | (Ok a, t') => (Ok a, t')
    | (Err e, t') => h e t'
    end.

Notation "x <- m ;; k" := (bind m (fun x => k))
  (at level 61, m at next level, right associativity).
Notation "m ;;; k" := (bind m (fun _ => k))
  (at level 61, right associativity).

(** [for x in l: acc = body x acc]. *)
Fixpoint for_each {A S : Type} (l : list A) (body : A -> S -> M S) (acc : S)
  : M S :=
  match l with
  | [] => ret acc
  | a :: l' => acc' <- body a acc ;; for_each l' body acc'
  end.

(** ** Storage upload: [upload_file_to_supabase] (main.py, lines 59-104) *)

Definition clean_public_url (public_url : PublicUrl) : option string :=
  let public_url :=
    match public_url with
    | UrlDict d =>
        py_or (py_or (dict_get d "publicURL") (dict_get d "publicUrl"))
              (dict_get d "public_url")
    | UrlStr s => Some s
    end in
  match public_url with
  | Some u => if truthy_str u && endswith "?" u then Some (rstrip "?" u) else Some u
  | None => None
  end.

Definition upload_file_to_supabase (w : World)
    (file_path stem_name user_id : string) : M (option string) :=
  emit (EvUploadCall file_path stem_name user_id) ;;;
  match supabase w with
  | None => ret None
  | Some client =>
      try_except
        (file_id <- ask (uuid4 w) ;;
         let storage_path :=
           user_id ++ "/separated/" ++ file_id ++ "_" ++ stem_name ++ ".wav" in
         file_content <- call (fun t => open_read w t file_path) ;;
         emit (EvStorageUpload "audio-files" storage_path file_content
                 "audio/wav" "3600") ;;;
         call_ (fun t => storage_upload client t "audio-files" storage_path
                           file_content) ;;;
         emit (EvGetPublicUrl "audio-files" storage_path) ;;;
         public_url <- call (fun t => storage_get_public_url client t
                                        "audio-files" storage_path) ;;
         ret (clean_public_url public_url))
        (fun _ => ret None)
  end.

(** ** Separation Orchestrator: [separate_audio] (main.py, lines 110-242) *)

(** The local path of an output, lines 193-195: [None] unless the object
    has a truthy [path]. *)
Definition local_file_path_of (output_file : OutputObj) : option string :=
  match output_file with
  | WithPath (Some p) => if truthy_str p then Some p else None
  | WithPath None => None
  | WithoutPath => None
  end.

(** One round of the loop at lines 189-215; the accumulator is
    [(output_files, local_files_to_cleanup)]. *)
Definition process_output (w : World) (two_stems model user_id : string)
    (item : nat * OutputObj) (acc : list OutputFile.t * list string)
  : M (list OutputFile.t * list string) :=
  let '(i, output_file) := item in
  let '(output_files, local_files_to_cleanup) := acc in
  match local_file_path_of output_file with
  | Some local_file_path =>
      if os_path_exists w local_file_path then
        stem_name <- lift (get_stem_name (Z.of_nat i) two_stems model) ;;
        public_url <- upload_file_to_supabase w local_file_path stem_name user_id ;;
        ret (app output_files
               [OutputFile.Build (Z.of_nat i) public_url stem_name],
             app local_files_to_cleanup [local_file_path])
      else ret acc
  | None => ret acc
  end.

(** Lines 220-225: a failed removal is logged and otherwise ignored. *)
Definition cleanup (w : World) (file_path : string) (_ : unit) : M unit :=
  emit (EvRemove file_path) ;;;
  try_except (call_ (fun t => os_remove w t file_path)) (fun _ => ret tt).

(** The body of the [try] block, lines 116-238. *)
Definition separate_audio_body (w : World) (request : SeparationRequest.t)
  : M SeparationResponse.t :=
  let audio_url := SeparationRequest.audio_url request in
  user_id <- lift (extract_user_id audio_url) ;;
  emit (EvSieveFile audio_url) ;;;
  check (sieve_File w audio_url) ;;;
  let p := resolve request in
  let model := Resolved.model p in
  let two_stems := Resolved.two_stems p in
  let overlap := Resolved.overlap p in
  let shifts := Resolved.shifts p in
  emit (EvFunctionGet "sieve/demucs") ;;;
  check (sieve_function_get w "sieve/demucs") ;;;
  let args :=
    DemucsArgs.Build audio_url model two_stems overlap shifts
      (SeparationRequest.audio_format request) in
  emit (EvDemucsRun args) ;;;
  result <- lift (demucs_run w args) ;;
  acc <- match result with
         | Iterable items =>
             for_each (enumerate items)
               (process_output w two_stems model user_id) ([], [])
         | NotIterable => ret ([], [])
         end ;;
  let '(output_files, local_files_to_cleanup) := acc in
  for_each local_files_to_cleanup (cleanup w) tt ;;;
  ret (SeparationResponse.Build
         "completed"
         "Separation completed successfully"
         output_files
         (Parameters.Build model two_stems overlap shifts
            (SeparationRequest.audio_format request))).

(** The handler: any exception of the body becomes an HTTP 500. *)
Definition separate_audio (w : World) (request : SeparationRequest.t)
    (t : trace) : HandlerResult * trace :=
  match separate_audio_body w request t with
  | (Ok body, t') => (Returned body, t')
  | (Err e, t') =>
      (HTTPException 500 ("Failed to complete separation: " ++ exn_str e), t')
  end.

(** ** What the handler did: projections of a trace (most recent first) *)

Fixpoint upload_calls (t : trace) : list (string * string * string) :=
  match t with
  | [] => []
  | EvUploadCall file_path stem_name user_id :: t' =>
      (file_path, stem_name, user_id) :: upload_calls t'
  | _ :: t' => upload_calls t'
  end.

Fixpoint storage_uploads (t : trace) : list string :=
  match t with
  | [] => []
  | EvStorageUpload _ storage_path _ _ _ :: t' => storage_path :: storage_uploads t'
  | _ :: t' => storage_uploads t'
  end.

Fixpoint demucs_calls (t : trace) : list DemucsArgs.t :=
  match t with
  | [] => []
  | EvDemucsRun args :: t' => args :: demucs_calls t'
  | _ :: t' => demucs_calls t'
  end.

(** An output the loop keeps: it has a truthy path that exists on disk. *)
Definition readable (w : World) (output_file : OutputObj) : bool :=
  match local_file_path_of output_file with
  | Some p => os_path_exists w p
  | None => false
  end.

(** The outputs the loop keeps, with their positions in the result. *)
Definition kept_from (w : World) (start : nat) (items : list OutputObj)
  : list (nat * OutputObj) :=
  filter (fun it => readable w (snd it)) (enumerate_from start items).

Definition kept_outputs (w : World) (result : RunResult)
  : list (nat * OutputObj) :=
  match result with
  | Iterable items => kept_from w 0 items
  | NotIterable => []
  end.

(** The arguments [demucs.run] is called with for a request. *)
Definition demucs_args (request : SeparationRequest.t) : DemucsArgs.t :=
  let p := resolve request in
  DemucsArgs.Build (SeparationRequest.audio_url request)
    (Resolved.model p) (Resolved.two_stems p)
    (Resolved.overlap p) (Resolved.shifts p)
    (SeparationRequest.audio_format request).

(** The files [os.remove] was called on. *)
Fixpoint removals (t : trace) : list string :=
  match t with
  | [] => []
  | EvRemove file_path :: t' => file_path :: removals t'
  | _ :: t' => removals t'
  end.

(** The request with the resolved values put back in its fields, as a
    client would build it from the [parameters] of a response. *)
Definition with_resolved (request : SeparationRequest.t) (p : Resolved.t)
  : SeparationRequest.t :=
  SeparationRequest.Build
    (SeparationRequest.audio_url request)
    (Resolved.model p) (Resolved.two_stems p)
    (Resolved.overlap p) (Resolved.shifts p)
    (SeparationRequest.audio_format request)
    (SeparationRequest.selected_stems request)
    (SeparationRequest.quality request).

(** The same collaborators with another behaviour of [os.remove]. *)
Definition with_os_remove (w : World) (f : trace -> string -> option exn)
  : World :=
  {| supabase := supabase w;
     uuid4 := uuid4 w;
     open_read := open_read w;
     os_path_exists := os_path_exists w;
     os_remove := f;
     sieve_File := sieve_File w;
     sieve_function_get := sieve_function_get w;
     demucs_run := demucs_run w |}.

(** What the output loop may add to the trace for a given owner: calls of
    [upload_file_to_supabase] for that owner, and storage calls on the
    bucket [audio-files] at a path [owner/separated/<id>_<stem>.wav] with
    the fixed content type and cache directive. *)
Definition upload_event_ok (user_id : string) (ev : event) : Prop :=
  match ev with
  | EvUploadCall _ _ u => u = user_id
  | EvStorageUpload bucket storage_path _ content_type cache_control =>
      bucket = "audio-files" /\ content_type = "audio/wav"
      /\ cache_control = "3600"
      /\ exists file_id stem_name,
           storage_path
           = user_id ++ "/separated/" ++ file_id ++ "_" ++ stem_name ++ ".wav"
  | EvGetPublicUrl bucket storage_path =>
      bucket = "audio-files"
      /\ exists file_id stem_name,
           storage_path
           = user_id ++ "/separated/" ++ file_id ++ "_" ++ stem_name ++ ".wav"
  | _ => False
  end.

(** ** Sample collaborators *)

Module Sample.

Definition url : string :=
  "https://x.supabase.co/storage/v1/object/public/audio-files/U1/song.mp3".

Definition request : SeparationRequest.t :=
  SeparationRequest.Build url "htdemucs" "None" 0.5%float 0 "wav" None
    (Some "standard").

Definition pro_request : SeparationRequest.t :=
  SeparationRequest.Build url "htdemucs" "None" 0.5%float 3 "mp3"
    (Some ["vocals"; "drums"]) (Some "pro").

Definition piano_request : SeparationRequest.t :=
  SeparationRequest.Build url "htdemucs" "None" 0.5%float 3 "wav"
    (Some ["piano"]) (Some "pro").

(** A URL in which the marker occurs twice. *)
Definition nested_url : string :=
  "https://x.supabase.co/audio-files/X/audio-files/U1/song.mp3".

Definition nested_request : SeparationRequest.t :=
  SeparationRequest.Build nested_url "htdemucs" "None" 0.5%float 0 "wav" None
    (Some "standard").

Definition outputs : list OutputObj :=
  [WithPath (Some "/tmp/a.wav"); WithoutPath; WithPath (Some "");
   WithPath (Some "/tmp/gone.wav"); WithPath None; WithPath (Some "/tmp/b.wav")].

Definition disk (p : string) : bool :=
  String.eqb p "/tmp/a.wav" || String.eqb p "/tmp/b.wav".

Definition client : Client :=
  {| storage_upload := fun _ _ _ _ => None;
     storage_get_public_url := fun _ bucket storage_path =>
       Ok (UrlStr ("https://cdn/" ++ bucket ++ "/" ++ storage_path ++ "?")) |}.

Definition world (c : option Client) (run : res RunResult) : World :=
  {| supabase := c;
     uuid4 := fun t => "id" ++ str_of_int (len t);
     open_read := fun _ p => if disk p then Ok "RIFF" else
                     Err (Raise "FileNotFoundError" p);
     os_path_exists := disk;
     os_remove := fun _ _ => None;
     sieve_File := fun _ => None;
     sieve_function_get := fun _ => None;
     demucs_run := fun _ => run |}.

(** No service key in the environment. *)
Definition unconfigured : World :=
  world (supabase_init (fun _ => None) (fun _ _ => client))
    (Ok (Iterable outputs)).

Definition configured : World := world (Some client) (Ok (Iterable outputs)).

Definition failing : World :=
  world (Some client) (Err (Raise "Exception" "quota exceeded")).

(** A client whose bucket refuses every upload. *)
Definition rejecting_client : Client :=
  {| storage_upload := fun _ _ _ _ => Some (Raise "StorageException" "denied");
     storage_get_public_url := storage_get_public_url client |}.

Definition rejecting : World :=
  world (Some rejecting_client) (Ok (Iterable outputs)).

(** A provider that only serves requests for mp3 output. *)
Definition mp3_only : World :=
  {| supabase := supabase configured;
     uuid4 := uuid4 configured;
     open_read := open_read configured;
     os_path_exists := os_path_exists configured;
     os_remove := os_remove configured;
     sieve_File := sieve_File configured;
     sieve_function_get := sieve_function_get configured;
     demucs_run := fun args =>
       if (DemucsArgs.audio_format args =? "mp3")%string
       then Ok (Iterable outputs)
       else Err (Raise "ValueError" "unsupported format") |}.

(** A provider that returns something that cannot be iterated. *)
Definition opaque_result : World := world (Some client) (Ok NotIterable).

(** A request for the vocals alone. *)
Definition vocals_request : SeparationRequest.t :=
  SeparationRequest.Build url "htdemucs" "None" 0.5%float 0 "wav"
    (Some ["vocals"]) (Some "standard").

End Sample.

(** * Properties *)

(** ** Python primitives *)

Lemma getitem_in_range {A : Type} (l : list A) (i : Z) :
  0 <= i < len l -> exists a, getitem l i = Ok a.
Proof.
  intros [Hlo Hhi]. unfold getitem.
  replace (i <? 0) with false by (symmetry; apply Z.ltb_ge; lia).
  replace (i <? 0) with false by (symmetry; apply Z.ltb_ge; lia).
  replace (len l <=? i) with false by (symmetry; apply Z.leb_gt; lia).
  simpl. destruct (nth_error l (Z.to_nat i)) eqn:E.
  - eauto.
  - apply nth_error_None in E. unfold len in Hhi. lia.
Qed.

Lemma getitem_app_middle {A : Type} (pre : list A) (a : A) (rest : list A) :
  getitem (pre ++ a :: rest)%list (len pre) = Ok a.
Proof.
  unfold getitem, len.
  replace (Z.of_nat (length pre) <? 0) with false
    by (symmetry; apply Z.ltb_ge; lia).
  replace (Z.of_nat (length pre) <? 0) with false
    by (symmetry; apply Z.ltb_ge; lia).
  replace (Z.of_nat (length (pre ++ a :: rest)) <=? Z.of_nat (length pre))
    with false
    by (symmetry; apply Z.leb_gt; rewrite length_app; simpl; lia).
  simpl. rewrite Nat2Z.id, nth_error_app2 by lia.
  now rewrite Nat.sub_diag.
Qed.

Lemma contains_In (x : string) (l : list string) :
  contains x l = true <-> In x l.
Proof.
  induction l as [|y l IH]; simpl.
  - split; [discriminate | tauto].
  - rewrite orb_true_iff, IH, String.eqb_eq. split; intros [H|H]; auto.
Qed.

Lemma contains_not_In (x : string) (l : list string) :
  contains x l = false <-> ~ In x l.
Proof.
  rewrite <- contains_In. destruct (contains x l); split; congruence.
Qed.

(** ** Stem Namer *)

Lemma get_stem_name_total (index : Z) (two_stems model : string) :
  0 <= index -> exists name, get_stem_name index two_stems model = Ok name.
Proof.
  intros Hpos. unfold get_stem_name.
  destruct (negb (two_stems =? "None")%string).
  - destruct (index =? 0); eauto.
  - destruct (model =? "htdemucs_6s")%string.
    + destruct (index <? len stem_names_6) eqn:E; eauto.
      apply getitem_in_range. apply Z.ltb_lt in E. lia.
    + destruct (index <? len stem_names_4) eqn:E; eauto.
      apply getitem_in_range. apply Z.ltb_lt in E. lia.
Qed.

Lemma get_stem_name_two_stem_mode (index : Z) (two_stems model : string) :
  two_stems <> "None" ->
  get_stem_name index two_stems model =
    Ok (if index =? 0 then two_stems else "no_" ++ two_stems).
Proof.
  intros Hne. unfold get_stem_name.
  apply String.eqb_neq in Hne. rewrite Hne. simpl.
  now destruct (index =? 0).
Qed.

(** C1, as written: with the lower-case word [none] for the sentinel the
    table vectors fail, because [none] is an ordinary two-stem target:
    index 0 is named [none], index 7 is named [no_none]. *)
Lemma get_stem_name_lowercase_none :
  get_stem_name 0 "none" "htdemucs" = Ok "none" /\
  get_stem_name 0 "none" "htdemucs" <> Ok "vocals" /\
  get_stem_name 3 "none" "htdemucs_6s" <> Ok "other" /\
  get_stem_name 5 "none" "htdemucs_6s" <> Ok "piano" /\
  get_stem_name 7 "none" "htdemucs" = Ok "no_none" /\
  get_stem_name 7 "none" "htdemucs" <> Ok "stem_7".
Proof.
  repeat split; try reflexivity; vm_compute; discriminate.
Qed.

(** C1, amended: [get_stem_name] returns a name for every index >= 0 (and
    is a function, hence deterministic); with the sentinel spelled [None]
    index 0 of the four-stem table is [vocals], indices 3 and 5 of the
    six-stem table are [other] and [piano], index 7 of the four-stem table
    is [stem_7]; with target [vocals], index 0 is [vocals] and index 1 is
    [no_vocals] whatever the model. *)
Theorem get_stem_name_total_and_vectors :
  (forall index two_stems model, 0 <= index ->
     exists name, get_stem_name index two_stems model = Ok name) /\
  (forall index two_stems model name name',
     get_stem_name index two_stems model = Ok name ->
     get_stem_name index two_stems model = Ok name' -> name = name') /\
  get_stem_name 0 "None" "htdemucs" = Ok "vocals" /\
  get_stem_name 3 "None" "htdemucs_6s" = Ok "other" /\
  get_stem_name 5 "None" "htdemucs_6s" = Ok "piano" /\
  get_stem_name 7 "None" "htdemucs" = Ok "stem_7" /\
  (forall model, get_stem_name 0 "vocals" model = Ok "vocals") /\
  (forall model, get_stem_name 1 "vocals" model = Ok "no_vocals").
Proof.
  split; [exact get_stem_name_total|].
  split; [intros * H1 H2; congruence|].
  repeat split; try reflexivity;
    intros model; now rewrite get_stem_name_two_stem_mode by discriminate.
Qed.

Lemma get_stem_name_total_and_vectors_witness :
  exists name, get_stem_name 7 "None" "htdemucs" = Ok name.
Proof.
  apply (proj1 get_stem_name_total_and_vectors 7 "None" "htdemucs"). lia.
Defined.

(** C9: the sentinel is the string [None], the default of the request's
    [two_stems] field.  For any other target, lower-case [none] included,
    index 0 is named after the target and every other index is [no_]
    followed by the target, whatever the model; and for the target [None]
    the name comes from the table of the model. *)
Theorem none_sentinel_is_exact (s m : string) (i : Z) :
  s <> "None" ->
  (forall audio_url,
     SeparationRequest.two_stems (SeparationRequest.defaults audio_url) = "None") /\
  get_stem_name 0 s m = Ok s /\
  (i <> 0 -> get_stem_name i s m = Ok ("no_" ++ s)) /\
  get_stem_name 0 "none" m = Ok "none" /\
  (forall m', get_stem_name i s m = get_stem_name i s m') /\
  get_stem_name i "None" m =
    (let table := if (m =? "htdemucs_6s")%string then stem_names_6
                  else stem_names_4 in
     if i <? len table then getitem table i else Ok ("stem_" ++ str_of_int i)).
Proof.
  intros Hne. split; [reflexivity|].
  split; [now rewrite get_stem_name_two_stem_mode|].
  split.
  { intros Hi. rewrite get_stem_name_two_stem_mode by assumption.
    apply Z.eqb_neq in Hi. now rewrite Hi. }
  split; [now rewrite get_stem_name_two_stem_mode by discriminate|].
  split.
  { intros m'. now rewrite !get_stem_name_two_stem_mode by assumption. }
  unfold get_stem_name. simpl. now destruct (m =? "htdemucs_6s")%string.
Qed.

Lemma none_sentinel_is_exact_witness :
  get_stem_name 0 "none" "htdemucs" = Ok "none" /\
  (2 <> 0 -> get_stem_name 2 "none" "htdemucs" = Ok "no_none").
Proof.
  pose proof (none_sentinel_is_exact "none" "htdemucs" 2) as H.
  assert (Hne : "none" <> "None") by discriminate.
  destruct (H Hne) as (_ & H0 & H1 & _). exact (conj H0 H1).
Defined.

(** ** Parameter Resolver *)

Lemma wants_six_stem_In (l : list string) :
  In "guitar" l \/ In "piano" l -> wants_six_stem (Some l) = true.
Proof.
  intros H. destruct l as [|s l]; [simpl in H; tauto|].
  unfold wants_six_stem. apply orb_true_iff.
  destruct H as [H|H]; [left|right]; now apply contains_In.
Qed.

Lemma wants_six_stem_not_In (selected_stems : option (list string)) :
  (forall stems, selected_stems = Some stems ->
     ~ In "guitar" stems /\ ~ In "piano" stems) ->
  wants_six_stem selected_stems = false.
Proof.
  intros H. destruct selected_stems as [[|s l]|]; try reflexivity.
  destruct (H (s :: l) eq_refl) as [Hg Hp].
  unfold wants_six_stem. apply orb_false_iff.
  split; now apply contains_not_In.
Qed.

Lemma quality_is_pro_iff (quality : option string) :
  quality_is_pro quality = true <-> quality = Some "pro".
Proof.
  destruct quality as [q|]; simpl.
  - rewrite String.eqb_eq. split; congruence.
  - split; discriminate.
Qed.

(** C2: a [pro] request whose model is [htdemucs] and whose selection does
    not force the six-stem model resolves to [htdemucs_ft], overlap 0.25
    and one shift, whatever overlap and shifts it asked for; a request of
    any other quality, or of none, keeps its own overlap and shifts. *)
Theorem pro_quality_forces_parameters (request : SeparationRequest.t) :
  (SeparationRequest.quality request = Some "pro" ->
   SeparationRequest.model request = "htdemucs" ->
   (forall stems,
      SeparationRequest.selected_stems request = Some stems ->
      ~ In "guitar" stems /\ ~ In "piano" stems) ->
   Resolved.model (resolve request) = "htdemucs_ft" /\
   Resolved.overlap (resolve request) = 0.25%float /\
   Resolved.shifts (resolve request) = 1) /\
  (SeparationRequest.quality request <> Some "pro" ->
   Resolved.overlap (resolve request) = SeparationRequest.overlap request /\
   Resolved.shifts (resolve request) = SeparationRequest.shifts request).
Proof.
  split.
  - intros Hq Hm Hs. unfold resolve.
    apply quality_is_pro_iff in Hq. apply wants_six_stem_not_In in Hs.
    rewrite Hq, Hs, Hm. simpl. auto.
  - intros Hq. unfold resolve.
    destruct (quality_is_pro (SeparationRequest.quality request)) eqn:E.
    + apply quality_is_pro_iff in E. contradiction.
    + simpl. auto.
Qed.

Lemma pro_quality_forces_parameters_witness :
  Resolved.model (resolve Sample.pro_request) = "htdemucs_ft" /\
  Resolved.overlap (resolve Sample.pro_request) = 0.25%float /\
  Resolved.shifts (resolve Sample.pro_request) = 1.
Proof.
  apply (proj1 (pro_quality_forces_parameters Sample.pro_request));
    try reflexivity.
  intros stems Hsel. injection Hsel as <-. simpl. intuition discriminate.
Defined.

(** C3: when the selection names guitar or piano, the resolved model is
    [htdemucs_6s] whatever model and quality were requested; in particular
    the [pro] upgrade to [htdemucs_ft] does not touch it. *)
Theorem guitar_or_piano_forces_six_stem
    (request : SeparationRequest.t) (stems : list string) :
  SeparationRequest.selected_stems request = Some stems ->
  In "guitar" stems \/ In "piano" stems ->
  Resolved.model (resolve request) = "htdemucs_6s" /\
  (SeparationRequest.quality request = Some "pro" ->
   Resolved.model (resolve request) <> "htdemucs_ft").
Proof.
  intros Hsel Hin.
  assert (Hm : Resolved.model (resolve request) = "htdemucs_6s").
  { unfold resolve. rewrite Hsel, (wants_six_stem_In stems Hin).
    now destruct (quality_is_pro (SeparationRequest.quality request)). }
  split; [exact Hm|]. intros _. rewrite Hm. discriminate.
Qed.

Lemma guitar_or_piano_forces_six_stem_witness :
  Resolved.model (resolve Sample.piano_request) = "htdemucs_6s" /\
  (SeparationRequest.quality Sample.piano_request = Some "pro" ->
   Resolved.model (resolve Sample.piano_request) <> "htdemucs_ft").
Proof.
  apply (guitar_or_piano_forces_six_stem Sample.piano_request ["piano"]).
  - reflexivity.
  - right. simpl. auto.
Defined.

(** C4: a selection of exactly one stem taken from vocals, drums, bass,
    other, guitar, piano becomes the two-stem target, whatever [two_stems]
    the request carries; a single entry outside that set leaves the
    request's [two_stems] in place. *)
Theorem single_selected_stem_is_two_stem_target
    (request : SeparationRequest.t) (s : string) :
  SeparationRequest.selected_stems request = Some [s] ->
  (In s ["vocals"; "drums"; "bass"; "other"; "guitar"; "piano"] ->
   Resolved.two_stems (resolve request) = s) /\
  (~ In s ["vocals"; "drums"; "bass"; "other"; "guitar"; "piano"] ->
   Resolved.two_stems (resolve request) = SeparationRequest.two_stems request).
Proof.
  intros Hsel. unfold resolve. rewrite Hsel. split; intros Hin.
  - apply contains_In in Hin. unfold single_stem_names. rewrite Hin.
    now destruct (quality_is_pro (SeparationRequest.quality request)).
  - apply contains_not_In in Hin. unfold single_stem_names. rewrite Hin.
    now destruct (quality_is_pro (SeparationRequest.quality request)).
Qed.

Lemma single_selected_stem_is_two_stem_target_witness :
  Resolved.two_stems (resolve Sample.piano_request) = "piano".
Proof.
  apply (proj1 (single_selected_stem_is_two_stem_target
                  Sample.piano_request "piano" eq_refl)).
  simpl. tauto.
Defined.

(** ** Owner extraction *)

Lemma scan_user_id_total (url_parts : list string) (it : list (nat * string)) :
  exists user_id, scan_user_id url_parts it = Ok user_id.
Proof.
  induction it as [|[i part] it IH]; simpl; [eauto|].
  destruct ((part =? "audio-files")%string
            && (Z.of_nat i + 1 <? len url_parts)) eqn:E; [|exact IH].
  apply andb_true_iff in E. destruct E as [_ E]. apply Z.ltb_lt in E.
  destruct (getitem_in_range url_parts (Z.of_nat i + 1)) as [u Hu]; [lia|].
  rewrite Hu. eauto.
Qed.

Lemma extract_user_id_total (audio_url : string) :
  exists user_id, extract_user_id audio_url = Ok user_id.
Proof.
  unfold extract_user_id.
  destruct (scan_user_id_total (split "/" audio_url)
              (enumerate (split "/" audio_url))) as [o Ho].
  rewrite Ho. eauto.
Qed.

Lemma scan_user_id_no_marker (url_parts : list string) (l : list string) (k : nat) :
  ~ In "audio-files" l ->
  scan_user_id url_parts (enumerate_from k l) = Ok None.
Proof.
  revert k. induction l as [|part l IH]; intros k Hnot; simpl; [reflexivity|].
  simpl in Hnot.
  destruct (part =? "audio-files")%string eqn:E.
  - apply String.eqb_eq in E. subst. tauto.
  - simpl. apply IH. tauto.
Qed.

Lemma scan_user_id_first_marker (p0 pre : list string) (u : string)
    (rest : list string) :
  ~ In "audio-files" pre ->
  scan_user_id (p0 ++ pre ++ "audio-files" :: u :: rest)%list
    (enumerate_from (length p0) (pre ++ "audio-files" :: u :: rest)%list)
  = Ok (Some u).
Proof.
  revert p0. induction pre as [|part pre IH]; intros p0 Hnot.
  - simpl.
    replace (Z.of_nat (length p0) + 1
             <? len (p0 ++ "audio-files" :: u :: rest)%list) with true
      by (symmetry; apply Z.ltb_lt; unfold len; rewrite length_app; simpl; lia).
    simpl.
    replace (p0 ++ "audio-files" :: u :: rest)%list
      with ((p0 ++ ["audio-files"]) ++ u :: rest)%list
      by (now rewrite <- app_assoc).
    replace (Z.of_nat (length p0) + 1) with (len (p0 ++ ["audio-files"])%list)
      by (unfold len; rewrite length_app; simpl; lia).
    now rewrite getitem_app_middle.
  - simpl in Hnot.
    change ((part :: pre) ++ "audio-files" :: u :: rest)%list
      with (part :: pre ++ "audio-files" :: u :: rest)%list.
    cbn [enumerate_from scan_user_id].
    destruct (part =? "audio-files")%string eqn:E.
    { apply String.eqb_eq in E. subst. tauto. }
    cbn [andb].
    specialize (IH (p0 ++ [part])%list).
    rewrite <- app_assoc in IH. simpl in IH.
    rewrite length_app in IH. simpl in IH.
    rewrite Nat.add_1_r in IH. apply IH. tauto.
Qed.

Lemma extract_user_id_first_marker (audio_url : string) (pre : list string)
    (u : string) (rest : list string) :
  split "/" audio_url = (pre ++ "audio-files" :: u :: rest)%list ->
  ~ In "audio-files" pre ->
  u <> "" ->
  extract_user_id audio_url = Ok u.
Proof.
  intros Hsplit Hnot Hu. unfold extract_user_id, enumerate. rewrite Hsplit.
  pose proof (scan_user_id_first_marker [] pre u rest Hnot) as Hscan.
  simpl in Hscan. rewrite Hscan.
  unfold truthy_str. apply String.eqb_neq in Hu. now rewrite Hu.
Qed.

(** C8, as written: a URL can contain the marker followed by [U1] and
    still resolve to another owner, because the scan stops at the first
    marker segment that has a successor. *)
Lemma owner_is_taken_after_first_marker_only :
  let request := Sample.nested_request in
  (exists pre rest,
     split "/" (SeparationRequest.audio_url request)
     = (pre ++ "audio-files" :: "U1" :: rest)%list) /\
  SeparationRequest.model request = "htdemucs" /\
  SeparationRequest.two_stems request = "None" /\
  SeparationRequest.quality request = Some "standard" /\
  SeparationRequest.selected_stems request = None /\
  extract_user_id (SeparationRequest.audio_url request) = Ok "X" /\
  extract_user_id (SeparationRequest.audio_url request) <> Ok "U1".
Proof.
  cbv zeta. split.
  { exists ["https:"; ""; "x.supabase.co"; "audio-files"; "X"], ["song.mp3"].
    reflexivity. }
  repeat split; try reflexivity. vm_compute. discriminate.
Qed.

(** C8, amended: when the first path segment equal to [audio-files] is
    followed by the segment [U1], the owner is [U1], and with model
    [htdemucs], two_stems [None], quality [standard] and no selection the
    resolved overlap and shifts are the request's own; when no path segment
    equals [audio-files], the owner is [anonymous]. *)
Theorem owner_from_first_marker (request : SeparationRequest.t) :
  (forall pre rest,
     split "/" (SeparationRequest.audio_url request)
     = (pre ++ "audio-files" :: "U1" :: rest)%list ->
     ~ In "audio-files" pre ->
     SeparationRequest.model request = "htdemucs" ->
     SeparationRequest.two_stems request = "None" ->
     SeparationRequest.quality request = Some "standard" ->
     SeparationRequest.selected_stems request = None ->
     extract_user_id (SeparationRequest.audio_url request) = Ok "U1" /\
     Resolved.overlap (resolve request) = SeparationRequest.overlap request /\
     Resolved.shifts (resolve request) = SeparationRequest.shifts request) /\
  (~ In "audio-files" (split "/" (SeparationRequest.audio_url request)) ->
   extract_user_id (SeparationRequest.audio_url request) = Ok "anonymous").
Proof.
  split.
  - intros pre rest Hsplit Hnot _ _ Hq _. split.
    + apply (extract_user_id_first_marker _ pre "U1" rest Hsplit Hnot).
      discriminate.
    + unfold resolve. rewrite Hq. simpl. auto.
  - intros Hnot. unfold extract_user_id, enumerate.
    now rewrite scan_user_id_no_marker.
Qed.

Lemma owner_from_first_marker_witness :
  extract_user_id (SeparationRequest.audio_url Sample.request) = Ok "U1" /\
  Resolved.overlap (resolve Sample.request)
  = SeparationRequest.overlap Sample.request /\
  Resolved.shifts (resolve Sample.request)
  = SeparationRequest.shifts Sample.request.
Proof.
  apply (proj1 (owner_from_first_marker Sample.request)
           ["https:"; ""; "x.supabase.co"; "storage"; "v1"; "object"; "public"]
           ["song.mp3"]); try reflexivity.
  simpl. intuition discriminate.
Defined.

(** ** Storage upload *)

(** Unfolds the monad operations in the goal. *)
Ltac run_monad :=
  unfold bind, ret, emit, ask, lift, check, call, call_, try_except; simpl.

Lemma supabase_init_without_key (getenv : string -> option string)
    (create_client : string -> string -> Client) :
  getenv "SUPABASE_SERVICE_ROLE_KEY" = None
  \/ getenv "SUPABASE_SERVICE_ROLE_KEY" = Some ""
  \/ getenv "SUPABASE_SERVICE_ROLE_KEY" = Some "your_service_role_key_here" ->
  supabase_init getenv create_client = None.
Proof.
  unfold supabase_init. intros [H|[H|H]]; rewrite H; reflexivity.
Qed.

(** [upload_file_to_supabase] never raises; it is recorded as one call and
    leaves the record of [demucs.run] calls alone. *)
Lemma upload_file_to_supabase_spec (w : World)
    (file_path stem_name user_id : string) (t : trace) :
  exists public_url t',
    upload_file_to_supabase w file_path stem_name user_id t
    = (Ok public_url, t') /\
    upload_calls t' = (file_path, stem_name, user_id) :: upload_calls t /\
    demucs_calls t' = demucs_calls t /\
    (supabase w = None ->
     public_url = None /\ storage_uploads t' = storage_uploads t).
Proof.
  unfold upload_file_to_supabase. run_monad.
  destruct (supabase w) as [client|].
  - destruct (open_read w _ file_path) as [content|e].
    + destruct (storage_upload client _ _ _ _) as [e|].
      * do 2 eexists. repeat split; try reflexivity; discriminate.
      * destruct (storage_get_public_url client _ _ _) as [pu|e];
          do 2 eexists; repeat split; try reflexivity; discriminate.
    + do 2 eexists. repeat split; try reflexivity; discriminate.
  - do 2 eexists. repeat split; reflexivity.
Qed.

(** ** Separation Orchestrator *)

(** The loop over the outputs never raises.  It appends one entry and one
    upload call per kept output, in order, each carrying the position of
    the output in the result and the name [get_stem_name] gives it. *)
Lemma process_outputs_spec (w : World) (two_stems model user_id : string)
    (items : list OutputObj) :
  forall (k : nat) (output_files : list OutputFile.t) (to_cleanup : list string)
         (t : trace),
  exists new_files new_cleanup calls t',
    for_each (enumerate_from k items)
      (process_output w two_stems model user_id) (output_files, to_cleanup) t
    = (Ok (app output_files new_files, app to_cleanup new_cleanup), t') /\
    map OutputFile.index new_files
    = map (fun it => Z.of_nat (fst it)) (kept_from w k items) /\
    Forall (fun f => get_stem_name (OutputFile.index f) two_stems model
                     = Ok (OutputFile.stem_name f)) new_files /\
    (supabase w = None ->
     Forall (fun f => OutputFile.url f = None) new_files /\
     storage_uploads t' = storage_uploads t) /\
    upload_calls t' = app (rev calls) (upload_calls t) /\
    map (fun c => Some (fst (fst c))) calls
    = map (fun it => local_file_path_of (snd it)) (kept_from w k items) /\
    map (fun c => snd (fst c)) calls = map OutputFile.stem_name new_files /\
    Forall (fun c => snd c = user_id) calls /\
    demucs_calls t' = demucs_calls t.
Proof.
  induction items as [|output_file items IH]; intros k output_files to_cleanup t.
  - exists [], [], [], t. simpl. unfold ret. rewrite !app_nil_r.
    repeat split; auto.
  - unfold kept_from. cbn [enumerate_from for_each filter snd].
    change (filter (fun it => readable w (snd it)) (enumerate_from (S k) items))
      with (kept_from w (S k) items).
    unfold bind at 1. unfold process_output at 1.
    assert (Hr : readable w output_file
                 = match local_file_path_of output_file with
                   | Some p => os_path_exists w p
                   | None => false
                   end) by reflexivity.
    rewrite Hr. clear Hr.
    destruct (local_file_path_of output_file) as [p|] eqn:Hp.
    + destruct (os_path_exists w p) eqn:Hex.
      * destruct (get_stem_name_total (Z.of_nat k) two_stems model) as [name Hn];
          [lia|].
        destruct (upload_file_to_supabase_spec w p name user_id t)
          as (public_url & t1 & Hup & Hcalls & Hdem & Hnone).
        unfold bind at 1. unfold lift, call. rewrite Hn.
        unfold bind at 1. rewrite Hup. unfold ret at 1.
        destruct (IH (S k)
                    (app output_files
                       [OutputFile.Build (Z.of_nat k) public_url name])
                    (app to_cleanup [p]) t1)
          as (nf & nc & calls & t' & Hrun & Hidx & Hnames & Hurl & Huc & Hpaths
              & Hcn & Huser & Hd).
        exists (OutputFile.Build (Z.of_nat k) public_url name :: nf),
               (p :: nc), ((p, name, user_id) :: calls), t'.
        split. { rewrite Hrun. now rewrite <- !app_assoc. }
        split. { simpl. now rewrite Hidx. }
        split. { constructor; [exact Hn | exact Hnames]. }
        split.
        { intros Hs. destruct (Hurl Hs) as [Hf Hst].
          destruct (Hnone Hs) as [Hu Hst1]. split.
          - constructor; [exact Hu | exact Hf].
          - congruence. }
        split. { rewrite Huc, Hcalls. simpl. now rewrite <- app_assoc. }
        split. { simpl. rewrite Hp. now rewrite Hpaths. }
        split. { simpl. now rewrite Hcn. }
        split. { constructor; [reflexivity | exact Huser]. }
        congruence.
      * unfold ret at 1.
        destruct (IH (S k) output_files to_cleanup t)
          as (nf & nc & calls & t' & Hrun & Hrest).
        exists nf, nc, calls, t'. split; [exact Hrun | exact Hrest].
    + unfold ret at 1.
      destruct (IH (S k) output_files to_cleanup t)
        as (nf & nc & calls & t' & Hrun & Hrest).
      exists nf, nc, calls, t'. split; [exact Hrun | exact Hrest].
Qed.

(** Removing the local files never raises and makes no upload. *)
Lemma cleanup_spec (w : World) (files : list string) :
  forall t, exists t',
    for_each files (cleanup w) tt t = (Ok tt, t') /\
    upload_calls t' = upload_calls t /\
    storage_uploads t' = storage_uploads t /\
    demucs_calls t' = demucs_calls t.
Proof.
  induction files as [|f files IH]; intros t.
  - exists t. simpl. unfold ret. auto.
  - cbn [for_each]. unfold bind at 1. unfold cleanup at 1. run_monad.
    destruct (os_remove w (EvRemove f :: t) f);
      destruct (IH (EvRemove f :: t)) as (t' & Hrun & Hrest);
      exists t'; (split; [exact Hrun | exact Hrest]).
Qed.

Lemma separate_audio_success (w : World) (request : SeparationRequest.t)
    (t : trace) (result : RunResult) :
  sieve_File w (SeparationRequest.audio_url request) = None ->
  sieve_function_get w "sieve/demucs" = None ->
  demucs_run w (demucs_args request) = Ok result ->
  exists user_id files calls t',
    extract_user_id (SeparationRequest.audio_url request) = Ok user_id /\
    separate_audio w request t
    = (Returned
         (SeparationResponse.Build "completed"
            "Separation completed successfully" files
            (Parameters.Build
               (Resolved.model (resolve request))
               (Resolved.two_stems (resolve request))
               (Resolved.overlap (resolve request))
               (Resolved.shifts (resolve request))
               (SeparationRequest.audio_format request))), t') /\
    map OutputFile.index files
    = map (fun it => Z.of_nat (fst it)) (kept_outputs w result) /\
    Forall (fun f => get_stem_name (OutputFile.index f)
                       (Resolved.two_stems (resolve request))
                       (Resolved.model (resolve request))
                     = Ok (OutputFile.stem_name f)) files /\
    (supabase w = None ->
     Forall (fun f => OutputFile.url f = None) files /\
     storage_uploads t' = storage_uploads t) /\
    upload_calls t' = app (rev calls) (upload_calls t) /\
    map (fun c => Some (fst (fst c))) calls
    = map (fun it => local_file_path_of (snd it)) (kept_outputs w result) /\
    map (fun c => snd (fst c)) calls = map OutputFile.stem_name files /\
    Forall (fun c => snd c = user_id) calls /\
    demucs_calls t' = demucs_args request :: demucs_calls t.
Proof.
  intros Hfile Hget Hrun.
  destruct (extract_user_id_total (SeparationRequest.audio_url request))
    as [user_id Hu].
  unfold demucs_args in Hrun.
  unfold separate_audio, separate_audio_body.
  unfold bind, lift, check, call, call_, emit. cbv zeta beta.
  rewrite Hu, Hfile, Hget, Hrun.
  set (t0 := EvDemucsRun _ :: _ :: _ :: t).
  assert (Hstage : exists files to_cleanup calls t1,
    match result with
    | Iterable items =>
        for_each (enumerate items)
          (process_output w (Resolved.two_stems (resolve request))
             (Resolved.model (resolve request)) user_id) ([], [])
    | NotIterable => ret ([], [])
    end t0 = (Ok (files, to_cleanup), t1) /\
    map OutputFile.index files
    = map (fun it => Z.of_nat (fst it)) (kept_outputs w result) /\
    Forall (fun f => get_stem_name (OutputFile.index f)
                       (Resolved.two_stems (resolve request))
                       (Resolved.model (resolve request))
                     = Ok (OutputFile.stem_name f)) files /\
    (supabase w = None ->
     Forall (fun f => OutputFile.url f = None) files /\
     storage_uploads t1 = storage_uploads t0) /\
    upload_calls t1 = app (rev calls) (upload_calls t0) /\
    map (fun c => Some (fst (fst c))) calls
    = map (fun it => local_file_path_of (snd it)) (kept_outputs w result) /\
    map (fun c => snd (fst c)) calls = map OutputFile.stem_name files /\
    Forall (fun c => snd c = user_id) calls /\
    demucs_calls t1 = demucs_calls t0).
  { destruct result as [items|].
    - destruct (process_outputs_spec w (Resolved.two_stems (resolve request))
                  (Resolved.model (resolve request)) user_id items 0%nat [] [] t0)
        as (nf & nc & calls & t1 & Hloop & Hrest).
      exists nf, nc, calls, t1. split; [exact Hloop | exact Hrest].
    - exists [], [], [], t0. unfold ret. simpl. repeat split; auto. }
  destruct Hstage as (files & to_cleanup & calls & t1 & Hloop & Hidx & Hnames
                      & Hurl & Huc & Hpaths & Hcn & Huser & Hd).
  rewrite Hloop.
  destruct (cleanup_spec w to_cleanup t1) as (t2 & Hclean & Hcu & Hcs & Hcd).
  rewrite Hclean. unfold ret.
  exists user_id, files, calls, t2.
  split; [reflexivity|]. split; [reflexivity|].
  split; [exact Hidx|]. split; [exact Hnames|].
  split.
  { intros Hs. destruct (Hurl Hs) as [Hf Hst]. split; [exact Hf|].
    rewrite Hcs, Hst. reflexivity. }
  split. { rewrite Hcu, Huc. reflexivity. }
  split; [exact Hpaths|]. split; [exact Hcn|]. split; [exact Huser|].
  rewrite Hcd, Hd. reflexivity.
Qed.

Lemma In_enumerate_from {A : Type} (l : list A) (k i : nat) (a : A) :
  In (i, a) (enumerate_from k l)
  <-> (k <= i)%nat /\ nth_error l (i - k) = Some a.
Proof.
  revert k. induction l as [|x l IH]; intros k; simpl.
  - split; [tauto|]. intros [_ H]. now destruct (i - k)%nat.
  - rewrite IH. split.
    + intros [H|[Hle Hnth]].
      * injection H as -> ->. rewrite Nat.sub_diag. auto.
      * split; [lia|].
        replace (i - k)%nat with (S (i - S k)) by lia. exact Hnth.
    + intros [Hle Hnth]. destruct (Nat.eq_dec k i) as [->|Hne].
      * rewrite Nat.sub_diag in Hnth. simpl in Hnth. left. congruence.
      * right. split; [lia|].
        replace (i - k)%nat with (S (i - S k)) in Hnth by lia. exact Hnth.
Qed.

Lemma kept_index_iff (w : World) (items : list OutputObj) (i : nat) :
  In (Z.of_nat i) (map (fun it => Z.of_nat (fst it)) (kept_from w 0 items))
  <-> exists o, nth_error items i = Some o /\ readable w o = true.
Proof.
  unfold kept_from. rewrite in_map_iff. split.
  - intros [[j o] [Hj Hin]]. simpl in Hj. apply Nat2Z.inj in Hj. subst j.
    apply filter_In in Hin. destruct Hin as [Hin Hr].
    apply In_enumerate_from in Hin. destruct Hin as [_ Hnth].
    rewrite Nat.sub_0_r in Hnth. eauto.
  - intros [o [Hnth Hr]]. exists (i, o). split; [reflexivity|].
    apply filter_In. split; [|exact Hr].
    apply In_enumerate_from. rewrite Nat.sub_0_r. split; [lia | exact Hnth].
Qed.

Lemma readable_false_iff (w : World) (o : OutputObj) :
  readable w o = false
  <-> o = WithoutPath \/ o = WithPath None \/ o = WithPath (Some "")
      \/ exists p, o = WithPath (Some p) /\ os_path_exists w p = false.
Proof.
  unfold readable, local_file_path_of, truthy_str. split.
  - destruct o as [[p|]|]; auto.
    destruct (p =? "")%string eqn:E; simpl.
    + apply String.eqb_eq in E. subst. auto.
    + intros H. right. right. right. eauto.
  - intros [->|[->|[->|[p [-> Hp]]]]]; try reflexivity.
    destruct (p =? "")%string; simpl; auto.
Qed.

Lemma readable_true_iff (w : World) (o : OutputObj) :
  readable w o = true
  <-> exists p, o = WithPath (Some p) /\ p <> "" /\ os_path_exists w p = true.
Proof.
  unfold readable, local_file_path_of, truthy_str. split.
  - destruct o as [[p|]|]; try discriminate.
    destruct (String.eqb_spec p "") as [->|Hne]; simpl; [discriminate|].
    intros H. exists p. auto.
  - intros (p & -> & Hne & Hex). apply String.eqb_neq in Hne.
    now rewrite Hne.
Qed.

Lemma kept_from_items (w : World) (items : list OutputObj) (it : nat * OutputObj) :
  In it (kept_from w 0 items) ->
  exists p,
    nth_error items (fst it) = Some (WithPath (Some p)) /\
    snd it = WithPath (Some p) /\ p <> "" /\ os_path_exists w p = true.
Proof.
  destruct it as [i o]. unfold kept_from. intros Hin.
  apply filter_In in Hin. destruct Hin as [Hin Hr]. simpl in Hr.
  apply In_enumerate_from in Hin. destruct Hin as [_ Hnth].
  rewrite Nat.sub_0_r in Hnth.
  apply readable_true_iff in Hr. destruct Hr as (p & -> & Hne & Hex).
  exists p. simpl. auto.
Qed.

(** The positions of the kept outputs come in increasing order. *)
Lemma kept_from_sorted (w : World) (items : list OutputObj) (k : nat) :
  StronglySorted Z.lt (map (fun it => Z.of_nat (fst it)) (kept_from w k items)) /\
  Forall (fun x => Z.of_nat k <= x)
    (map (fun it => Z.of_nat (fst it)) (kept_from w k items)).
Proof.
  revert k. induction items as [|o items IH]; intros k.
  - split; constructor.
  - destruct (IH (S k)) as [Hs Hf]. unfold kept_from in *.
    cbn [enumerate_from filter snd].
    assert (Hge : Forall (fun x => Z.of_nat k <= x)
                    (map (fun it => Z.of_nat (fst it))
                       (filter (fun it => readable w (snd it))
                          (enumerate_from (S k) items)))).
    { eapply Forall_impl; [|exact Hf]. intros x Hx. simpl in Hx. lia. }
    destruct (readable w o); [|split; assumption].
    simpl. split.
    + constructor; [exact Hs|].
      eapply Forall_impl; [|exact Hf]. intros x Hx. simpl in Hx. lia.
    + constructor; [lia | exact Hge].
Qed.

(** Entries, upload calls and kept outputs go together one by one. *)
Lemma entries_and_calls_aligned (w : World) (items : list OutputObj)
    (user_id : string) :
  forall (kept : list (nat * OutputObj)) (files : list OutputFile.t)
         (calls : list (string * string * string)),
    (forall it, In it kept -> In it (kept_from w 0 items)) ->
    map OutputFile.index files = map (fun it => Z.of_nat (fst it)) kept ->
    map (fun c => Some (fst (fst c))) calls
    = map (fun it => local_file_path_of (snd it)) kept ->
    map (fun c => snd (fst c)) calls = map OutputFile.stem_name files ->
    Forall (fun c => snd c = user_id) calls ->
    Forall2 (fun f c =>
               exists i p,
                 OutputFile.index f = Z.of_nat i /\
                 nth_error items i = Some (WithPath (Some p)) /\
                 p <> "" /\ os_path_exists w p = true /\
                 c = (p, OutputFile.stem_name f, user_id))
      files calls.
Proof.
  induction kept as [|[i o] kept IH]; intros files calls Hin Hidx Hpaths Hcn Hu.
  - destruct files; [|discriminate]. destruct calls; [|discriminate].
    constructor.
  - destruct files as [|f files]; [discriminate|].
    destruct calls as [|[[cp cn] cu] calls]; [discriminate|].
    simpl in Hidx, Hpaths, Hcn.
    injection Hidx as Hi Hidx. injection Hpaths as Hp Hpaths.
    injection Hcn as Hn Hcn. inversion Hu as [|? ? Hu1 Hu2]; subst.
    constructor.
    + destruct (kept_from_items w items (i, o) (Hin _ (or_introl eq_refl)))
        as (p & Hnth & Ho & Hne & Hex).
      simpl in *. subst o.
      unfold local_file_path_of, truthy_str in Hp.
      apply String.eqb_neq in Hne. rewrite Hne in Hp. simpl in Hp.
      injection Hp as ->. apply String.eqb_neq in Hne.
      exists i, p. repeat split; auto.
    + apply IH; auto. intros it Hit. apply Hin. now right.
Qed.

(** C5: when [demucs.run] raises, the handler answers HTTP 500 with detail
    [Failed to complete separation: ] followed by the message of the
    exception; nothing is returned, and the only calls made are the three
    to Sieve: no upload is attempted. *)
Theorem remote_failure_is_http_500 (w : World) (request : SeparationRequest.t)
    (t : trace) (e : exn) :
  sieve_File w (SeparationRequest.audio_url request) = None ->
  sieve_function_get w "sieve/demucs" = None ->
  demucs_run w (demucs_args request) = Err e ->
  exists t',
    separate_audio w request t
    = (HTTPException 500 ("Failed to complete separation: " ++ exn_str e), t') /\
    http_status (fst (separate_audio w request t)) = 500 /\
    (forall body, fst (separate_audio w request t) <> Returned body) /\
    t' = EvDemucsRun (demucs_args request)
         :: EvFunctionGet "sieve/demucs"
         :: EvSieveFile (SeparationRequest.audio_url request) :: t /\
    upload_calls t' = upload_calls t /\
    storage_uploads t' = storage_uploads t.
Proof.
  intros Hfile Hget Hrun.
  destruct (extract_user_id_total (SeparationRequest.audio_url request))
    as [user_id Hu].
  assert (Heq : separate_audio w request t
                = (HTTPException 500
                     ("Failed to complete separation: " ++ exn_str e),
                   EvDemucsRun (demucs_args request)
                   :: EvFunctionGet "sieve/demucs"
                   :: EvSieveFile (SeparationRequest.audio_url request) :: t)).
  { unfold demucs_args in *.
    unfold separate_audio, separate_audio_body.
    unfold bind, lift, check, call, call_, emit. cbv zeta beta.
    now rewrite Hu, Hfile, Hget, Hrun. }
  eexists. split; [exact Heq|]. rewrite Heq. simpl.
  repeat split; auto. discriminate.
Qed.

Lemma remote_failure_is_http_500_witness :
  exists t',
    separate_audio Sample.failing Sample.piano_request []
    = (HTTPException 500 "Failed to complete separation: quota exceeded", t') /\
    upload_calls t' = [].
Proof.
  destruct (remote_failure_is_http_500 Sample.failing Sample.piano_request []
              (Raise "Exception" "quota exceeded") eq_refl eq_refl eq_refl)
    as (t' & Heq & _ & _ & _ & Hup & _).
  exists t'. split; [exact Heq | exact Hup].
Defined.

(** C6: with no storage client, every call of [upload_file_to_supabase]
    returns no URL and does not raise; so whenever the separation call
    succeeds the handler returns (HTTP 200) with status [completed], every
    entry of [output_files] has a null [url], and the storage service is
    never called. *)
Theorem unconfigured_storage_still_completes (w : World)
    (request : SeparationRequest.t) (t : trace) (result : RunResult) :
  supabase w = None ->
  sieve_File w (SeparationRequest.audio_url request) = None ->
  sieve_function_get w "sieve/demucs" = None ->
  demucs_run w (demucs_args request) = Ok result ->
  (forall file_path stem_name user_id t0,
     fst (upload_file_to_supabase w file_path stem_name user_id t0) = Ok None) /\
  exists body t',
    separate_audio w request t = (Returned body, t') /\
    http_status (Returned body) = 200 /\
    SeparationResponse.status body = "completed" /\
    length (SeparationResponse.output_files body)
    = length (kept_outputs w result) /\
    Forall (fun f => OutputFile.url f = None)
      (SeparationResponse.output_files body) /\
    storage_uploads t' = storage_uploads t.
Proof.
  intros Hs Hfile Hget Hrun. split.
  - intros file_path stem_name user_id t0.
    destruct (upload_file_to_supabase_spec w file_path stem_name user_id t0)
      as (public_url & t1 & Hup & _ & _ & Hnone).
    rewrite Hup. simpl. now destruct (Hnone Hs) as [-> _].
  - destruct (separate_audio_success w request t result Hfile Hget Hrun)
      as (user_id & files & calls & t' & _ & Heq & Hidx & _ & Hurl & _).
    destruct (Hurl Hs) as [Hnull Hst].
    eexists. exists t'. split; [exact Heq|]. simpl.
    repeat split; auto.
    rewrite <- (length_map OutputFile.index), Hidx. apply length_map.
Qed.

Lemma unconfigured_storage_still_completes_witness :
  exists body t',
    separate_audio Sample.unconfigured Sample.request [] = (Returned body, t') /\
    SeparationResponse.status body = "completed" /\
    length (SeparationResponse.output_files body) = 2%nat /\
    Forall (fun f => OutputFile.url f = None)
      (SeparationResponse.output_files body).
Proof.
  destruct (unconfigured_storage_still_completes Sample.unconfigured
              Sample.request [] (Iterable Sample.outputs)
              eq_refl eq_refl eq_refl eq_refl)
    as (_ & body & t' & Heq & _ & Hst & Hlen & Hnull & _).
  exists body, t'. repeat split; assumption.
Defined.

(** C7: when the separation call returns a list of outputs, the request
    succeeds; an output at position [i] with no [path] attribute, a null or
    empty path, or a path that does not exist on disk has no entry in
    [output_files]; every other output, one whose [path] is a non-empty
    string that exists on disk, has an entry with [index] [i] and an upload
    call on its path; the entries come in increasing order of position,
    each named by [get_stem_name] at its position; and
    [upload_file_to_supabase] is called exactly once per entry, in order,
    with the path of the output at that entry's position, the entry's name
    and the owner. *)
Theorem unreadable_outputs_are_skipped (w : World)
    (request : SeparationRequest.t) (t : trace) (items : list OutputObj) :
  sieve_File w (SeparationRequest.audio_url request) = None ->
  sieve_function_get w "sieve/demucs" = None ->
  demucs_run w (demucs_args request) = Ok (Iterable items) ->
  exists user_id body calls t',
    extract_user_id (SeparationRequest.audio_url request) = Ok user_id /\
    separate_audio w request t = (Returned body, t') /\
    (forall i o,
       nth_error items i = Some o ->
       o = WithoutPath \/ o = WithPath None \/ o = WithPath (Some "")
       \/ (exists p, o = WithPath (Some p) /\ os_path_exists w p = false) ->
       ~ In (Z.of_nat i)
           (map OutputFile.index (SeparationResponse.output_files body))) /\
    (forall i p,
       nth_error items i = Some (WithPath (Some p)) ->
       p <> "" ->
       os_path_exists w p = true ->
       In (Z.of_nat i)
          (map OutputFile.index (SeparationResponse.output_files body))
       /\ In p (map (fun c => fst (fst c)) calls)) /\
    StronglySorted Z.lt
      (map OutputFile.index (SeparationResponse.output_files body)) /\
    Forall2 (fun f c =>
               exists i p,
                 OutputFile.index f = Z.of_nat i /\
                 nth_error items i = Some (WithPath (Some p)) /\
                 p <> "" /\ os_path_exists w p = true /\
                 c = (p, OutputFile.stem_name f, user_id))
      (SeparationResponse.output_files body) calls /\
    map OutputFile.index (SeparationResponse.output_files body)
    = map (fun it => Z.of_nat (fst it))
        (filter (fun it => readable w (snd it)) (enumerate items)) /\
    Forall (fun f => get_stem_name (OutputFile.index f)
                       (Resolved.two_stems (resolve request))
                       (Resolved.model (resolve request))
                     = Ok (OutputFile.stem_name f))
      (SeparationResponse.output_files body) /\
    upload_calls t' = app (rev calls) (upload_calls t) /\
    map (fun c => Some (fst (fst c))) calls
    = map (fun it => local_file_path_of (snd it))
        (filter (fun it => readable w (snd it)) (enumerate items)) /\
    map (fun c => snd (fst c)) calls
    = map OutputFile.stem_name (SeparationResponse.output_files body) /\
    Forall (fun c => snd c = user_id) calls /\
    Forall (fun c => os_path_exists w (fst (fst c)) = true) calls.
Proof.
  intros Hfile Hget Hrun.
  destruct (separate_audio_success w request t (Iterable items) Hfile Hget Hrun)
    as (user_id & files & calls & t' & Hu & Heq & Hidx & Hnames & _ & Huc
        & Hpaths & Hcn & Huser & _).
  simpl in Hidx, Hpaths.
  eexists user_id, _, calls, t'.
  split; [exact Hu|]. split; [exact Heq|]. simpl.
  split.
  { intros i o Hnth Hbad Hin. rewrite Hidx in Hin.
    apply kept_index_iff in Hin. destruct Hin as (o' & Hnth' & Hr).
    apply readable_false_iff in Hbad. congruence. }
  assert (Hal : Forall2 (fun f c =>
                 exists i p,
                   OutputFile.index f = Z.of_nat i /\
                   nth_error items i = Some (WithPath (Some p)) /\
                   p <> "" /\ os_path_exists w p = true /\
                   c = (p, OutputFile.stem_name f, user_id)) files calls).
  { apply (entries_and_calls_aligned w items user_id (kept_from w 0 items));
      auto. }
  split.
  { intros i p Hnth Hne Hex.
    assert (Hr : readable w (WithPath (Some p)) = true).
    { apply readable_true_iff. exists p. auto. }
    assert (Hi : In (Z.of_nat i) (map OutputFile.index files)).
    { rewrite Hidx. apply kept_index_iff. eauto. }
    split; [exact Hi|].
    apply in_map_iff in Hi. destruct Hi as (f & Hf & Hfin).
    clear - Hal Hf Hfin Hnth.
    induction Hal as [|f' c fs cs (i' & p' & Hi' & Hnth' & _ & _ & Hc) _ IH];
      [destruct Hfin|].
    destruct Hfin as [->|Hfin].
    - left. rewrite Hf in Hi'. apply Nat2Z.inj in Hi'. subst i'.
      rewrite Hnth in Hnth'. injection Hnth' as <-. now subst c.
    - right. now apply IH. }
  split. { rewrite Hidx. apply kept_from_sorted. }
  split; [exact Hal|].
  split; [exact Hidx|]. split; [exact Hnames|]. split; [exact Huc|].
  split; [exact Hpaths|]. split; [exact Hcn|]. split; [exact Huser|].
  clear - Hpaths. unfold kept_from in Hpaths.
  revert Hpaths.
  generalize (enumerate_from 0 items). intros l. revert calls.
  induction l as [|[i o] l IH]; intros calls Hpaths.
  - destruct calls; [constructor | discriminate].
  - simpl in Hpaths. destruct (readable w o) eqn:Hr.
    + destruct calls as [|c calls]; [discriminate|].
      simpl in Hpaths. injection Hpaths as Hc Hrest.
      constructor; [|apply IH; exact Hrest].
      unfold readable in Hr. rewrite <- Hc in Hr. exact Hr.
    + apply IH. exact Hpaths.
Qed.

Lemma unreadable_outputs_are_skipped_witness :
  exists body t',
    separate_audio Sample.configured Sample.request [] = (Returned body, t') /\
    In 5 (map OutputFile.index (SeparationResponse.output_files body)) /\
    ~ In 3 (map OutputFile.index (SeparationResponse.output_files body)) /\
    map OutputFile.index (SeparationResponse.output_files body) = [0; 5] /\
    map (fun c => fst (fst c)) (rev (upload_calls t'))
    = ["/tmp/a.wav"; "/tmp/b.wav"].
Proof.
  destruct (unreadable_outputs_are_skipped Sample.configured Sample.request []
              Sample.outputs eq_refl eq_refl eq_refl)
    as (user_id & body & calls & t' & _ & Heq & Hneg & Hpos & _ & _ & Hidx & _
        & Huc & Hpaths & _).
  exists body, t'. split; [exact Heq|].
  split.
  { apply (Hpos 5%nat "/tmp/b.wav"); [reflexivity | discriminate | reflexivity]. }
  split.
  { apply (Hneg 3%nat (WithPath (Some "/tmp/gone.wav"))); [reflexivity|].
    right. right. right. exists "/tmp/gone.wav". split; reflexivity. }
  split; [exact Hidx|].
  rewrite Huc, app_nil_r, rev_involutive.
  apply (f_equal (map (fun o => match o with Some p => p | None => "" end)))
    in Hpaths.
  rewrite map_map in Hpaths. simpl in Hpaths.
  rewrite <- Hpaths. apply map_ext. reflexivity.
Defined.

(** C10: whenever the handler returns, the [parameters] object of the
    response holds the four resolved values and an [audio_format] equal to
    the request's, and the one call of [demucs.run] it made, the call whose
    result it went on with, was given the resolved values and that same
    [audio_format]. *)
Theorem audio_format_passes_through (w : World)
    (request : SeparationRequest.t) (t t' : trace)
    (body : SeparationResponse.t) :
  separate_audio w request t = (Returned body, t') ->
  SeparationResponse.parameters body
  = Parameters.Build
      (Resolved.model (resolve request))
      (Resolved.two_stems (resolve request))
      (Resolved.overlap (resolve request))
      (Resolved.shifts (resolve request))
      (SeparationRequest.audio_format request) /\
  Parameters.audio_format (SeparationResponse.parameters body)
  = SeparationRequest.audio_format request /\
  (exists args result,
     demucs_calls t' = args :: demucs_calls t /\
     demucs_run w args = Ok result /\
     args = demucs_args request /\
     DemucsArgs.audio_format args = SeparationRequest.audio_format request /\
     DemucsArgs.file args = SeparationRequest.audio_url request /\
     DemucsArgs.model args = Resolved.model (resolve request) /\
     DemucsArgs.two_stems args = Resolved.two_stems (resolve request) /\
     DemucsArgs.overlap args = Resolved.overlap (resolve request) /\
     DemucsArgs.shifts args = Resolved.shifts (resolve request)).
Proof.
  intros Hret.
  destruct (extract_user_id_total (SeparationRequest.audio_url request))
    as [user_id Hu].
  destruct (sieve_File w (SeparationRequest.audio_url request)) as [e|] eqn:Hfile.
  { exfalso. revert Hret. unfold separate_audio, separate_audio_body.
    unfold bind, lift, check, call, call_, emit. cbv zeta beta.
    rewrite Hu, Hfile. discriminate. }
  destruct (sieve_function_get w "sieve/demucs") as [e|] eqn:Hget.
  { exfalso. revert Hret. unfold separate_audio, separate_audio_body.
    unfold bind, lift, check, call, call_, emit. cbv zeta beta.
    rewrite Hu, Hfile, Hget. discriminate. }
  destruct (demucs_run w (demucs_args request)) as [result|e] eqn:Hrun.
  - destruct (separate_audio_success w request t result Hfile Hget Hrun)
      as (user_id' & files & calls & t2 & _ & Heq & _ & _ & _ & _ & _ & _ & _
          & Hd).
    rewrite Heq in Hret. injection Hret as <- <-. simpl.
    split; [reflexivity|]. split; [reflexivity|].
    exists (demucs_args request), result. split; [exact Hd|].
    split; [exact Hrun|]. simpl. auto 10.
  - exfalso. revert Hret. unfold demucs_args in Hrun.
    unfold separate_audio, separate_audio_body.
    unfold bind, lift, check, call, call_, emit. cbv zeta beta.
    rewrite Hu, Hfile, Hget, Hrun. discriminate.
Qed.

Lemma audio_format_passes_through_witness :
  exists body t',
    separate_audio Sample.mp3_only Sample.pro_request [] = (Returned body, t') /\
    Parameters.audio_format (SeparationResponse.parameters body) = "mp3" /\
    map DemucsArgs.audio_format (demucs_calls t') = ["mp3"] /\
    exists args result,
      demucs_calls t' = [args] /\
      demucs_run Sample.mp3_only args = Ok result.
Proof.
  destruct (separate_audio Sample.mp3_only Sample.pro_request [])
    as [r t'] eqn:Hrun.
  destruct r as [body|code detail]; [|vm_compute in Hrun; discriminate].
  destruct (audio_format_passes_through Sample.mp3_only Sample.pro_request
              [] t' body Hrun)
    as (_ & Hfmt & args & result & Hd & Hok & _ & Hargs & _).
  exists body, t'. split; [reflexivity|]. split; [exact Hfmt|].
  split; [rewrite Hd; simpl; now rewrite Hargs|].
  exists args, result. split; [exact Hd | exact Hok].
Defined.

(** * Further properties of the code *)

(** ** Python primitives, continued *)

Lemma string_app_assoc (a b c : string) : ((a ++ b) ++ c = a ++ (b ++ c))%string.
Proof.
  induction a as [|x a IH]; simpl; [reflexivity | now rewrite IH].
Qed.

Lemma getitem_raises_iff {A : Type} (l : list A) (i : Z) :
  (exists e, getitem l i = Err e) <-> i < - len l \/ len l <= i.
Proof.
  unfold getitem. split.
  - intros [e He].
    destruct (i <? 0) eqn:Hneg.
    + apply Z.ltb_lt in Hneg.
      destruct ((len l + i <? 0) || (len l <=? len l + i)) eqn:Hout.
      * apply orb_true_iff in Hout. destruct Hout as [H|H].
        -- apply Z.ltb_lt in H. lia.
        -- apply Z.leb_le in H. lia.
      * apply orb_false_iff in Hout. destruct Hout as [H1 H2].
        apply Z.ltb_ge in H1. apply Z.leb_gt in H2.
        destruct (nth_error l (Z.to_nat (len l + i))) eqn:E; [discriminate|].
        apply nth_error_None in E. unfold len in *. lia.
    + apply Z.ltb_ge in Hneg.
      destruct ((i <? 0) || (len l <=? i)) eqn:Hout.
      * apply orb_true_iff in Hout. destruct Hout as [H|H].
        -- apply Z.ltb_lt in H. lia.
        -- apply Z.leb_le in H. lia.
      * apply orb_false_iff in Hout. destruct Hout as [H1 H2].
        apply Z.leb_gt in H2.
        destruct (nth_error l (Z.to_nat i)) eqn:E; [discriminate|].
        apply nth_error_None in E. unfold len in *. lia.
  - intros [H|H].
    + replace (i <? 0) with true
        by (symmetry; apply Z.ltb_lt; unfold len in *; lia).
      replace (len l + i <? 0) with true by (symmetry; apply Z.ltb_lt; lia).
      simpl. eauto.
    + replace (i <? 0) with false
        by (symmetry; apply Z.ltb_ge; unfold len in *; lia).
      replace (len l <=? i) with true by (symmetry; apply Z.leb_le; lia).
      rewrite orb_true_r. eauto.
Qed.

Lemma getitem_raises_IndexError {A : Type} (l : list A) (i : Z) (e : exn) :
  getitem l i = Err e -> e = Raise "IndexError" "list index out of range".
Proof.
  unfold getitem.
  destruct (_ || _); [congruence|].
  destruct (nth_error _ _); congruence.
Qed.

Lemma getitem_negative {A : Type} (l : list A) (i : Z) :
  - len l <= i < 0 -> getitem l i = getitem l (len l + i).
Proof.
  intros [Hlo Hhi]. unfold getitem.
  assert (E1 : (i <? 0) = true) by (apply Z.ltb_lt; lia).
  assert (E2 : (len l + i <? 0) = false) by (apply Z.ltb_ge; lia).
  cbv zeta. rewrite E1, !E2. reflexivity.
Qed.

Lemma getitem_In {A : Type} (l : list A) (i : Z) (a : A) :
  getitem l i = Ok a -> In a l.
Proof.
  unfold getitem. destruct (_ || _); [discriminate|].
  destruct (nth_error l _) eqn:E; [|discriminate].
  intros [= <-]. eapply nth_error_In. exact E.
Qed.

Lemma str_of_int_inj (n n' : Z) : str_of_int n = str_of_int n' -> n = n'.
Proof.
  assert (Hnil : forall z, Z.to_int z <> Decimal.Pos Decimal.Nil
                           /\ Z.to_int z <> Decimal.Neg Decimal.Nil).
  { intros z. pose proof (DecimalZ.to_of (Z.to_int z)) as H.
    rewrite DecimalZ.of_to in H.
    split; intros E; rewrite E in H; discriminate. }
  unfold str_of_int. intros H.
  apply (f_equal NilZero.int_of_string) in H.
  destruct (Hnil n) as [? ?], (Hnil n') as [? ?].
  rewrite !NilZero.isi in H by assumption.
  injection H as H. now apply DecimalZ.to_int_inj.
Qed.

(** ** Stem Namer, continued *)

(** The table the namer reads for a model. *)
Lemma get_stem_name_table_mode (index : Z) (model : string) :
  get_stem_name index "None" model
  = (let table := if (model =? "htdemucs_6s")%string then stem_names_6
                  else stem_names_4 in
     if index <? len table then getitem table index
     else Ok ("stem_" ++ str_of_int index)).
Proof.
  unfold get_stem_name. simpl. now destruct (model =? "htdemucs_6s")%string.
Qed.

(** X1: [get_stem_name] raises only in table mode, and exactly for an index
    below minus the length of the model's table (-4, or -6 for the six-stem
    model); what it raises is Python's [IndexError]. *)
Theorem get_stem_name_raises_iff (index : Z) (two_stems model : string) :
  ((exists e, get_stem_name index two_stems model = Err e)
   <-> two_stems = "None"
       /\ index < (if (model =? "htdemucs_6s")%string then -6 else -4)) /\
  (forall e, get_stem_name index two_stems model = Err e ->
             e = Raise "IndexError" "list index out of range").
Proof.
  destruct (String.eqb_spec two_stems "None") as [->|Hne].
  - rewrite get_stem_name_table_mode. cbv zeta.
    destruct (model =? "htdemucs_6s")%string.
    + destruct (index <? len stem_names_6) eqn:E.
      * split.
        -- rewrite getitem_raises_iff. apply Z.ltb_lt in E.
           change (len stem_names_6) with 6 in *. split.
           ++ intros [H|H]; [split; [reflexivity | lia] | lia].
           ++ intros [_ H]. left. lia.
        -- apply getitem_raises_IndexError.
      * apply Z.ltb_ge in E. change (len stem_names_6) with 6 in E. split.
        -- split; [intros [e He]; discriminate | intros [_ H]; lia].
        -- discriminate.
    + destruct (index <? len stem_names_4) eqn:E.
      * split.
        -- rewrite getitem_raises_iff. apply Z.ltb_lt in E.
           change (len stem_names_4) with 4 in *. split.
           ++ intros [H|H]; [split; [reflexivity | lia] | lia].
           ++ intros [_ H]. left. lia.
        -- apply getitem_raises_IndexError.
      * apply Z.ltb_ge in E. change (len stem_names_4) with 4 in E. split.
        -- split; [intros [e He]; discriminate | intros [_ H]; lia].
        -- discriminate.
  - rewrite get_stem_name_two_stem_mode by assumption. split.
    + split; [intros [e He]; discriminate | intros [H _]; contradiction].
    + discriminate.
Qed.

(** X2: in table mode a negative index within the table counts from its
    end, as Python list indexing does: index [-1] is the last name of the
    table. *)
Theorem get_stem_name_negative_index (index : Z) (model : string) :
  (if (model =? "htdemucs_6s")%string then -6 else -4) <= index < 0 ->
  get_stem_name index "None" model
  = get_stem_name
      ((if (model =? "htdemucs_6s")%string then 6 else 4) + index) "None" model.
Proof.
  intros H. rewrite !get_stem_name_table_mode. cbv zeta.
  destruct (model =? "htdemucs_6s")%string.
  - change (len stem_names_6) with 6.
    replace (index <? 6) with true by (symmetry; apply Z.ltb_lt; lia).
    replace (6 + index <? 6) with true by (symmetry; apply Z.ltb_lt; lia).
    apply (getitem_negative stem_names_6). exact H.
  - change (len stem_names_4) with 4.
    replace (index <? 4) with true by (symmetry; apply Z.ltb_lt; lia).
    replace (4 + index <? 4) with true by (symmetry; apply Z.ltb_lt; lia).
    apply (getitem_negative stem_names_4). exact H.
Qed.

Lemma get_stem_name_negative_index_witness :
  get_stem_name (-1) "None" "htdemucs" = get_stem_name 3 "None" "htdemucs".
Proof.
  apply (get_stem_name_negative_index (-1) "htdemucs"). simpl. lia.
Defined.

(** Splits a non-negative index below 6 into its six values. *)
Ltac index_cases i :=
  let H := fresh "Hcases" in
  assert (H : i = 0 \/ i = 1 \/ i = 2 \/ i = 3 \/ i = 4 \/ i = 5) by lia;
  destruct H as [->|[->|[->|[->|[->| ->]]]]].

Lemma get_stem_name_table_value (i : Z) (model name : string) :
  0 <= i ->
  get_stem_name i "None" model = Ok name ->
  (i < 6 /\ In name stem_names_6) \/ (4 <= i /\ name = "stem_" ++ str_of_int i).
Proof.
  intros Hi. rewrite get_stem_name_table_mode. cbv zeta.
  destruct (model =? "htdemucs_6s")%string.
  - change (len stem_names_6) with 6. destruct (i <? 6) eqn:E.
    + apply Z.ltb_lt in E. intros H. left. split; [lia|].
      eapply getitem_In. exact H.
    + apply Z.ltb_ge in E. intros [= <-]. right. split; [lia | reflexivity].
  - change (len stem_names_4) with 4. destruct (i <? 4) eqn:E.
    + apply Z.ltb_lt in E. intros H. left. split; [lia|].
      apply getitem_In in H. simpl in *. tauto.
    + apply Z.ltb_ge in E. intros [= <-]. right. split; [lia | reflexivity].
Qed.

(** X3: in table mode two different non-negative indices never get the same
    name, whatever the model: the table names are pairwise different, the
    fallback [stem_N] spells the index, and no table name has that shape. *)
Theorem get_stem_name_table_names_distinct (i j : Z) (model name : string) :
  0 <= i -> 0 <= j ->
  get_stem_name i "None" model = Ok name ->
  get_stem_name j "None" model = Ok name ->
  i = j.
Proof.
  intros Hi Hj H1 H2.
  assert (Hfall : forall k, In ("stem_" ++ str_of_int k) stem_names_6 -> False).
  { intros k Hin. simpl in Hin.
    repeat (destruct Hin as [Hin|Hin]; [discriminate|]). exact Hin. }
  destruct (get_stem_name_table_value i model name Hi H1) as [[Hi6 Hin1]|[Hi4 E1]];
    destruct (get_stem_name_table_value j model name Hj H2) as [[Hj6 Hin2]|[Hj4 E2]].
  - revert H1 H2. rewrite !get_stem_name_table_mode. cbv zeta.
    destruct (model =? "htdemucs_6s")%string;
      index_cases i; index_cases j; vm_compute;
      intros H1 H2; first [reflexivity | congruence].
  - subst name. destruct (Hfall j Hin1).
  - subst name. destruct (Hfall i Hin2).
  - rewrite E1 in E2. cbn [append] in E2. injection E2 as E2.
    now apply str_of_int_inj.
Qed.

Lemma get_stem_name_table_names_distinct_witness :
  get_stem_name 7 "None" "htdemucs" = Ok "stem_7" /\ 7 = 7.
Proof.
  split; [reflexivity|].
  apply (get_stem_name_table_names_distinct 7 7 "htdemucs" "stem_7");
    [lia | lia | reflexivity | reflexivity].
Defined.

(** X4: for a non-negative index other than 4 and 5 the name does not depend
    on the model: the two tables agree on their first four entries and share
    the fallback from 6 on. *)
Theorem get_stem_name_model_matters_at_4_and_5 (i : Z)
    (two_stems model model' : string) :
  0 <= i -> i <> 4 -> i <> 5 ->
  get_stem_name i two_stems model = get_stem_name i two_stems model'.
Proof.
  intros Hi H4 H5.
  destruct (String.eqb_spec two_stems "None") as [->|Hne].
  - rewrite !get_stem_name_table_mode. cbv zeta.
    assert (Hc : i = 0 \/ i = 1 \/ i = 2 \/ i = 3 \/ 6 <= i) by lia.
    destruct (model =? "htdemucs_6s")%string,
             (model' =? "htdemucs_6s")%string; try reflexivity;
      change (len stem_names_6) with 6; change (len stem_names_4) with 4;
      (destruct Hc as [->|[->|[->|[->|Hc]]]]; try reflexivity;
       replace (i <? 6) with false by (symmetry; apply Z.ltb_ge; lia);
       replace (i <? 4) with false by (symmetry; apply Z.ltb_ge; lia);
       reflexivity).
  - now rewrite !get_stem_name_two_stem_mode by assumption.
Qed.

Lemma get_stem_name_model_matters_at_4_and_5_witness :
  get_stem_name 9 "None" "htdemucs_6s" = get_stem_name 9 "None" "mdx".
Proof.
  apply (get_stem_name_model_matters_at_4_and_5 9 "None" "htdemucs_6s" "mdx");
    lia.
Defined.

(** ** Owner extraction, continued *)

Lemma chars_app (a b : string) :
  list_ascii_of_string (a ++ b)
  = (list_ascii_of_string a ++ list_ascii_of_string b)%list.
Proof.
  induction a as [|x a IH]; simpl; [reflexivity | now rewrite IH].
Qed.

Lemma split_aux_app (sep : ascii) (a b cur : string) :
  split_aux sep (a ++ String sep b) cur
  = (split_aux sep a cur ++ split_aux sep b "")%list.
Proof.
  revert cur. induction a as [|x a IH]; intros cur; simpl.
  - now rewrite Ascii.eqb_refl.
  - destruct (Ascii.eqb x sep); [now rewrite IH | apply IH].
Qed.

Lemma split_aux_no_sep (sep : ascii) (s cur : string) :
  ~ In sep (list_ascii_of_string s) ->
  split_aux sep s cur = [(cur ++ s)%string].
Proof.
  revert cur. induction s as [|x s IH]; intros cur Hnot; simpl.
  - f_equal. clear. induction cur as [|y cur IH]; simpl; congruence.
  - simpl in Hnot. destruct (Ascii.eqb_spec x sep) as [->|Hne]; [tauto|].
    rewrite IH by tauto. now rewrite string_app_assoc.
Qed.

Lemma split_aux_pieces (sep : ascii) (s cur piece : string) :
  ~ In sep (list_ascii_of_string cur) ->
  In piece (split_aux sep s cur) ->
  ~ In sep (list_ascii_of_string piece).
Proof.
  revert cur. induction s as [|x s IH]; intros cur Hcur; simpl.
  - intros [<-|[]]. exact Hcur.
  - destruct (Ascii.eqb_spec x sep) as [->|Hne].
    + intros [<-|Hin]; [exact Hcur|]. apply (IH ""%string); simpl; tauto.
    + apply IH. rewrite chars_app, in_app_iff. simpl.
      intros [H|[H|[]]]; [tauto | congruence].
Qed.

Lemma scan_user_id_In (url_parts : list string) (it : list (nat * string))
    (u : string) :
  scan_user_id url_parts it = Ok (Some u) -> In u url_parts.
Proof.
  induction it as [|[i part] it IH]; simpl; [discriminate|].
  destruct (_ && _); [|exact IH].
  destruct (getitem url_parts (Z.of_nat i + 1)) as [a|e] eqn:E; [|discriminate].
  intros [= <-]. eapply getitem_In. exact E.
Qed.

Lemma scan_user_id_marker_last (p0 pre : list string) :
  ~ In "audio-files" pre ->
  scan_user_id (p0 ++ pre ++ ["audio-files"])%list
    (enumerate_from (length p0) (pre ++ ["audio-files"])%list)
  = Ok None.
Proof.
  revert p0. induction pre as [|part pre IH]; intros p0 Hnot.
  - simpl.
    replace (Z.of_nat (length p0) + 1 <? len (p0 ++ ["audio-files"])%list)
      with false
      by (symmetry; apply Z.ltb_ge; unfold len; rewrite length_app; simpl; lia).
    reflexivity.
  - simpl in Hnot.
    change ((part :: pre) ++ ["audio-files"])%list
      with (part :: pre ++ ["audio-files"])%list.
    cbn [enumerate_from scan_user_id].
    destruct (part =? "audio-files")%string eqn:E.
    { apply String.eqb_eq in E. subst. tauto. }
    cbn [andb].
    specialize (IH (p0 ++ [part])%list).
    rewrite <- app_assoc in IH. simpl in IH.
    rewrite length_app in IH. simpl in IH.
    rewrite Nat.add_1_r in IH. apply IH. tauto.
Qed.

(** X5: the owner is decided by the first path segment equal to
    [audio-files] alone: it is the segment after it when there is one and it
    is not empty, and [anonymous] when that marker is the last segment or is
    followed by an empty segment, whatever comes later in the URL. *)
Theorem extract_user_id_by_first_marker (audio_url : string)
    (pre rest : list string) :
  split "/" audio_url = (pre ++ "audio-files" :: rest)%list ->
  ~ In "audio-files" pre ->
  extract_user_id audio_url
  = Ok (match rest with
        | [] => "anonymous"
        | u :: _ => if (u =? "")%string then "anonymous" else u
        end).
Proof.
  intros Hsplit Hnot. unfold extract_user_id, enumerate. rewrite Hsplit.
  destruct rest as [|u rest].
  - pose proof (scan_user_id_marker_last [] pre Hnot) as Hscan.
    simpl in Hscan. now rewrite Hscan.
  - pose proof (scan_user_id_first_marker [] pre u rest Hnot) as Hscan.
    simpl in Hscan. rewrite Hscan. unfold truthy_str.
    now destruct (u =? "")%string.
Qed.

Lemma extract_user_id_by_first_marker_witness :
  extract_user_id "https://h/audio-files//audio-files/U1/song.mp3"
  = Ok "anonymous".
Proof.
  apply (extract_user_id_by_first_marker
           "https://h/audio-files//audio-files/U1/song.mp3"
           ["https:"; ""; "h"] [""; "audio-files"; "U1"; "song.mp3"]).
  - reflexivity.
  - simpl. intuition discriminate.
Defined.

(** X6: the owner is never the empty string and never contains a slash: it
    is one non-empty path segment of the URL, or [anonymous]. *)
Theorem extract_user_id_is_a_segment (audio_url user_id : string) :
  extract_user_id audio_url = Ok user_id ->
  user_id <> "" /\
  ~ In "/"%char (list_ascii_of_string user_id) /\
  (user_id = "anonymous" \/ In user_id (split "/" audio_url)).
Proof.
  unfold extract_user_id.
  destruct (scan_user_id (split "/" audio_url) (enumerate (split "/" audio_url)))
    as [[u|]|e] eqn:Hscan; try discriminate.
  - apply scan_user_id_In in Hscan. unfold truthy_str.
    destruct (String.eqb_spec u "") as [->|Hne]; simpl; intros [= <-].
    + split; [discriminate|]. split; [|now left].
      simpl. intuition discriminate.
    + split; [exact Hne|]. split; [|now right].
      eapply (split_aux_pieces "/" audio_url ""); [simpl; tauto | exact Hscan].
  - intros [= <-]. split; [discriminate|]. split; [|now left].
    simpl. intuition discriminate.
Qed.

Lemma extract_user_id_is_a_segment_witness :
  "U1" <> "" /\
  ~ In "/"%char (list_ascii_of_string "U1") /\
  ("U1" = "anonymous" \/ In "U1" (split "/" Sample.url)).
Proof.
  apply (extract_user_id_is_a_segment Sample.url "U1"). reflexivity.
Defined.

(** X7: a URL made of a base without marker segment, then [/audio-files/],
    an owner (non-empty, without slash), a slash and anything else resolves
    to that owner; so the public URL of an object stored under
    [owner/separated/...] in the bucket resolves to the same owner. *)
Theorem extract_user_id_of_bucket_url (base owner rest : string) :
  ~ In "audio-files" (split "/" base) ->
  owner <> "" ->
  ~ In "/"%char (list_ascii_of_string owner) ->
  extract_user_id (base ++ "/audio-files/" ++ owner ++ "/" ++ rest) = Ok owner.
Proof.
  intros Hbase Hne Hslash.
  apply (extract_user_id_first_marker _ (split "/" base) owner (split "/" rest));
    [|exact Hbase | exact Hne].
  unfold split.
  change (base ++ "/audio-files/" ++ owner ++ "/" ++ rest)%string
    with (base ++ String "/" ("audio-files" ++ String "/" (owner ++ String "/" rest)))%string.
  rewrite split_aux_app. f_equal.
  rewrite split_aux_app. simpl. f_equal.
  rewrite split_aux_app. now rewrite split_aux_no_sep.
Qed.

Lemma extract_user_id_of_bucket_url_witness :
  extract_user_id
    ("https://cdn" ++ "/audio-files/" ++ "U1" ++ "/" ++ "separated/id4_vocals.wav")
  = Ok "U1".
Proof.
  apply (extract_user_id_of_bucket_url "https://cdn" "U1"
           "separated/id4_vocals.wav").
  - simpl. intuition discriminate.
  - discriminate.
  - simpl. intuition discriminate.
Defined.

(** ** Parameter Resolver, continued *)

(** X8: resolving is idempotent: a request that carries the resolved model,
    two-stem target, overlap and shifts of another (same selection, same
    quality) resolves to those same values. *)
Theorem resolve_idempotent (request : SeparationRequest.t) :
  resolve (with_resolved request (resolve request)) = resolve request.
Proof.
  destruct request as [url model two_stems overlap shifts fmt sel quality].
  unfold resolve, with_resolved. cbn [SeparationRequest.audio_url
    SeparationRequest.model SeparationRequest.two_stems
    SeparationRequest.overlap SeparationRequest.shifts
    SeparationRequest.audio_format SeparationRequest.selected_stems
    SeparationRequest.quality].
  destruct (quality_is_pro quality); cbn [Resolved.model Resolved.two_stems
    Resolved.overlap Resolved.shifts];
    destruct (wants_six_stem sel);
    destruct sel as [[|s [|s' l]]|]; try reflexivity;
    try (destruct (contains s single_stem_names));
    try (destruct (String.eqb_spec model "htdemucs") as [->|Hm]);
    try reflexivity;
    try (apply String.eqb_neq in Hm; rewrite Hm; reflexivity).
Qed.

(** X9: with quality [pro] the overlap is 0.25 and the shift count 1 for
    every request, six-stem ones included; the resolved model is never
    [htdemucs]; and a requested model other than [htdemucs] is kept unless
    the selection names guitar or piano. *)
Theorem pro_quality_for_any_model (request : SeparationRequest.t) :
  SeparationRequest.quality request = Some "pro" ->
  Resolved.overlap (resolve request) = 0.25%float /\
  Resolved.shifts (resolve request) = 1 /\
  Resolved.model (resolve request) <> "htdemucs" /\
  (SeparationRequest.model request <> "htdemucs" ->
   (forall stems,
      SeparationRequest.selected_stems request = Some stems ->
      ~ In "guitar" stems /\ ~ In "piano" stems) ->
   Resolved.model (resolve request) = SeparationRequest.model request).
Proof.
  intros Hq. apply quality_is_pro_iff in Hq. unfold resolve. rewrite Hq.
  cbn [Resolved.model Resolved.overlap Resolved.shifts].
  split; [reflexivity|]. split; [reflexivity|]. split.
  - destruct (wants_six_stem _); [discriminate|].
    destruct (String.eqb_spec (SeparationRequest.model request) "htdemucs");
      [discriminate | assumption].
  - intros Hm Hs. apply wants_six_stem_not_In in Hs. rewrite Hs.
    apply String.eqb_neq in Hm. now rewrite Hm.
Qed.

Lemma pro_quality_for_any_model_witness :
  Resolved.overlap (resolve Sample.piano_request) = 0.25%float /\
  Resolved.shifts (resolve Sample.piano_request) = 1 /\
  Resolved.model (resolve Sample.piano_request) <> "htdemucs".
Proof.
  destruct (pro_quality_for_any_model Sample.piano_request eq_refl)
    as (Ho & Hs & Hm & _).
  exact (conj Ho (conj Hs Hm)).
Defined.

(** X10: a request whose quality is not [pro] and whose selection is absent
    or empty resolves to its own model, two-stem target, overlap and shifts;
    and whatever the quality, the two-stem target changes only for a
    selection of exactly one of the six stem names. *)
Theorem resolve_passes_through (request : SeparationRequest.t) :
  ((forall s, SeparationRequest.selected_stems request = Some [s] ->
              ~ In s ["vocals"; "drums"; "bass"; "other"; "guitar"; "piano"]) ->
   Resolved.two_stems (resolve request) = SeparationRequest.two_stems request) /\
  (SeparationRequest.quality request <> Some "pro" ->
   SeparationRequest.selected_stems request = None
   \/ SeparationRequest.selected_stems request = Some [] ->
   resolve request
   = Resolved.Build
       (SeparationRequest.model request) (SeparationRequest.two_stems request)
       (SeparationRequest.overlap request) (SeparationRequest.shifts request)).
Proof.
  split.
  - intros Hsel. unfold resolve.
    assert (Hts : match SeparationRequest.selected_stems request with
                  | Some [stem] =>
                      if contains stem single_stem_names then stem
                      else SeparationRequest.two_stems request
                  | _ => SeparationRequest.two_stems request
                  end = SeparationRequest.two_stems request).
    { destruct (SeparationRequest.selected_stems request) as [[|s [|s' l]]|];
        try reflexivity.
      specialize (Hsel s eq_refl). apply contains_not_In in Hsel.
      unfold single_stem_names. now rewrite Hsel. }
    rewrite Hts.
    now destruct (quality_is_pro (SeparationRequest.quality request)).
  - intros Hq Hsel. unfold resolve.
    destruct (quality_is_pro (SeparationRequest.quality request)) eqn:E.
    { apply quality_is_pro_iff in E. contradiction. }
    destruct Hsel as [-> | ->]; reflexivity.
Qed.

Lemma resolve_passes_through_witness :
  resolve Sample.request = Resolved.Build "htdemucs" "None" 0.5%float 0.
Proof.
  apply (proj2 (resolve_passes_through Sample.request)).
  - discriminate.
  - now left.
Defined.

(** ** Start-up of the storage client *)

(** X11: the storage client is absent exactly when the service key is
    unset, empty or the placeholder; otherwise it is created from that key
    and from [SUPABASE_URL], or the project's default URL when that variable
    is unset. *)
Theorem supabase_init_none_iff (getenv : string -> option string)
    (create_client : string -> string -> Client) :
  (supabase_init getenv create_client = None
   <-> getenv "SUPABASE_SERVICE_ROLE_KEY" = None
       \/ getenv "SUPABASE_SERVICE_ROLE_KEY" = Some ""
       \/ getenv "SUPABASE_SERVICE_ROLE_KEY" = Some "your_service_role_key_here") /\
  (forall key,
     getenv "SUPABASE_SERVICE_ROLE_KEY" = Some key ->
     key <> "" -> key <> "your_service_role_key_here" ->
     supabase_init getenv create_client
     = Some (create_client
               (match getenv "SUPABASE_URL" with
                | Some v => v
                | None => "https://wqzretaqqqtzxdtoljqr.supabase.co"
                end) key)).
Proof.
  split.
  - split; [|apply supabase_init_without_key].
    unfold supabase_init.
    destruct (getenv "SUPABASE_SERVICE_ROLE_KEY") as [key|]; [|auto].
    unfold truthy_str. rewrite negb_involutive.
    destruct (String.eqb_spec key "") as [->|H1]; [auto|].
    destruct (String.eqb_spec key "your_service_role_key_here") as [->|H2];
      [auto | discriminate].
  - intros key Hkey H1 H2. unfold supabase_init. rewrite Hkey.
    unfold truthy_str. rewrite negb_involutive.
    apply String.eqb_neq in H1, H2. now rewrite H1, H2.
Qed.

Lemma supabase_init_none_iff_witness :
  supabase_init
    (fun k => if (k =? "SUPABASE_SERVICE_ROLE_KEY")%string then Some "k1"
              else None)
    (fun _ _ => Sample.client)
  = Some Sample.client.
Proof.
  apply (proj2 (supabase_init_none_iff
                  (fun k => if (k =? "SUPABASE_SERVICE_ROLE_KEY")%string
                            then Some "k1" else None)
                  (fun _ _ => Sample.client)) "k1");
    [reflexivity | discriminate | discriminate].
Defined.

(** ** Public URL clean-up *)

Lemma endswith_rstrip (c : ascii) (s : string) : endswith c (rstrip c s) = false.
Proof.
  induction s as [|a s IH]; [reflexivity|].
  cbn [rstrip]. destruct (rstrip c s) as [|b r] eqn:E.
  - destruct (Ascii.eqb a c) eqn:Ea; [reflexivity|]. simpl. exact Ea.
  - exact IH.
Qed.

Lemma rstrip_tail (c : ascii) (s : string) :
  exists tail,
    s = (rstrip c s ++ tail)%string /\
    forall x, In x (list_ascii_of_string tail) -> x = c.
Proof.
  induction s as [|a s (tail & Hs & Hall)].
  - exists ""%string. split; [reflexivity | intros x []].
  - cbn [rstrip]. destruct (rstrip c s) as [|b r] eqn:E.
    + simpl in Hs. subst tail.
      destruct (Ascii.eqb_spec a c) as [->|Hne].
      * exists (String c s). split; [reflexivity|].
        intros x [<-|Hin]; [reflexivity | now apply Hall].
      * exists s. split; [reflexivity | exact Hall].
    + exists tail. split; [|exact Hall]. simpl. f_equal. exact Hs.
Qed.

(** X12: a URL the client returns as a string comes back without its
    trailing question marks and otherwise unchanged: the result never ends
    with [?], and the original is the result followed by question marks
    only (so a URL made of question marks alone comes back empty). *)
Theorem clean_public_url_strips_question_marks (s : string) :
  exists r tail,
    clean_public_url (UrlStr s) = Some r /\
    s = (r ++ tail)%string /\
    (forall x, In x (list_ascii_of_string tail) -> x = "?"%char) /\
    endswith "?" r = false /\
    (endswith "?" s = false -> r = s).
Proof.
  unfold clean_public_url.
  destruct (truthy_str s && endswith "?" s) eqn:E.
  - destruct (rstrip_tail "?" s) as (tail & Hs & Hall).
    exists (rstrip "?" s), tail. split; [reflexivity|]. split; [exact Hs|].
    split; [exact Hall|]. split; [apply endswith_rstrip|].
    apply andb_true_iff in E. destruct E as [_ E]. congruence.
  - exists s, ""%string. split; [reflexivity|]. split.
    { clear. induction s as [|a s IH]; simpl; congruence. }
    split; [intros x []|]. split; [|reflexivity].
    apply andb_false_iff in E. destruct E as [E|E]; [|exact E].
    unfold truthy_str in E. apply negb_false_iff, String.eqb_eq in E.
    now subst.
Qed.

Lemma clean_public_url_no_question_mark (public_url : PublicUrl) (r : string) :
  clean_public_url public_url = Some r -> endswith "?" r = false.
Proof.
  unfold clean_public_url.
  match goal with |- match ?o with _ => _ end = _ -> _ => destruct o as [u|] end;
    [|discriminate].
  destruct (truthy_str u && endswith "?" u) eqn:E; intros [= <-].
  - apply endswith_rstrip.
  - apply andb_false_iff in E. destruct E as [E|E]; [|exact E].
    unfold truthy_str in E. apply negb_false_iff, String.eqb_eq in E.
    now subst.
Qed.

(** X13: when the client returns a dictionary, the URL is taken from the
    key [publicURL] if it holds a non-empty string, else from [publicUrl] if
    that one does, else from [public_url] whatever it holds; a dictionary
    with none of the three keys gives no URL. *)
Theorem clean_public_url_dict_keys (d : list (string * string)) :
  (forall u, dict_get d "publicURL" = Some u -> u <> "" ->
     clean_public_url (UrlDict d) = clean_public_url (UrlStr u)) /\
  (forall u,
     dict_get d "publicURL" = None \/ dict_get d "publicURL" = Some "" ->
     dict_get d "publicUrl" = Some u -> u <> "" ->
     clean_public_url (UrlDict d) = clean_public_url (UrlStr u)) /\
  (dict_get d "publicURL" = None \/ dict_get d "publicURL" = Some "" ->
   dict_get d "publicUrl" = None \/ dict_get d "publicUrl" = Some "" ->
   clean_public_url (UrlDict d)
   = match dict_get d "public_url" with
     | Some u => clean_public_url (UrlStr u)
     | None => None
     end).
Proof.
  assert (Htruthy : forall u b, u <> "" -> py_or (Some u) b = Some u).
  { intros u b Hne. unfold py_or, truthy_opt_str, truthy_str.
    apply String.eqb_neq in Hne. now rewrite Hne. }
  assert (Hfalsy : forall a b, a = None \/ a = Some "" -> py_or a b = b).
  { intros a b [-> | ->]; reflexivity. }
  unfold clean_public_url. repeat split.
  - intros u Hu Hne. rewrite Hu. now rewrite !Htruthy by assumption.
  - intros u H1 Hu Hne. rewrite (Hfalsy _ _ H1), Hu.
    now rewrite Htruthy by assumption.
  - intros H1 H2. rewrite (Hfalsy _ _ H1), (Hfalsy _ _ H2).
    now destruct (dict_get d "public_url").
Qed.

Lemma clean_public_url_dict_keys_witness :
  clean_public_url (UrlDict [("publicURL", ""); ("publicUrl", "https://h/a?")])
  = clean_public_url (UrlStr "https://h/a?").
Proof.
  apply (proj1 (proj2 (clean_public_url_dict_keys
                         [("publicURL", ""); ("publicUrl", "https://h/a?")]))
           "https://h/a?");
    [now right | reflexivity | discriminate].
Defined.

(** ** Storage upload, continued *)

(** The events one call of [upload_file_to_supabase] adds, and that it
    always returns. *)
Lemma upload_file_to_supabase_trace (w : World)
    (file_path stem_name user_id : string) (t : trace) :
  exists public_url new,
    upload_file_to_supabase w file_path stem_name user_id t
    = (Ok public_url, (new ++ t)%list) /\
    Forall (upload_event_ok user_id) new /\
    removals new = [] /\
    (forall r, public_url = Some r ->
       endswith "?" r = false /\
       exists storage_path content,
         new = [EvGetPublicUrl "audio-files" storage_path;
                EvStorageUpload "audio-files" storage_path content
                  "audio/wav" "3600";
                EvUploadCall file_path stem_name user_id]).
Proof.
  unfold upload_file_to_supabase. run_monad.
  set (t1 := EvUploadCall file_path stem_name user_id :: t).
  assert (Hcall : upload_event_ok user_id
                    (EvUploadCall file_path stem_name user_id))
    by reflexivity.
  destruct (supabase w) as [client|].
  - destruct (open_read w t1 file_path) as [content|e].
    + set (sp := (user_id ++ "/separated/" ++ uuid4 w t1 ++ "_" ++ stem_name
                  ++ ".wav")%string).
      assert (Hup : upload_event_ok user_id
                      (EvStorageUpload "audio-files" sp content "audio/wav" "3600")).
      { simpl. repeat split. now exists (uuid4 w t1), stem_name. }
      assert (Hget : upload_event_ok user_id (EvGetPublicUrl "audio-files" sp)).
      { simpl. split; [reflexivity|]. now exists (uuid4 w t1), stem_name. }
      destruct (storage_upload client _ _ _ _) as [e|].
      * exists None, [EvStorageUpload "audio-files" sp content "audio/wav" "3600";
                      EvUploadCall file_path stem_name user_id].
        repeat split; auto; discriminate.
      * destruct (storage_get_public_url client _ _ _) as [pu|e].
        -- exists (clean_public_url pu),
             [EvGetPublicUrl "audio-files" sp;
              EvStorageUpload "audio-files" sp content "audio/wav" "3600";
              EvUploadCall file_path stem_name user_id].
           repeat split; auto.
           ++ eapply clean_public_url_no_question_mark; eassumption.
           ++ eauto.
        -- exists None,
             [EvGetPublicUrl "audio-files" sp;
              EvStorageUpload "audio-files" sp content "audio/wav" "3600";
              EvUploadCall file_path stem_name user_id].
           repeat split; auto; discriminate.
    + exists None, [EvUploadCall file_path stem_name user_id].
      repeat split; auto; discriminate.
  - exists None, [EvUploadCall file_path stem_name user_id].
    repeat split; auto; discriminate.
Qed.

(** X14: when the client exists, the file can be read, and both storage
    calls return, the upload stores the bytes read at
    [user_id/separated/<uuid>_<stem_name>.wav] in the bucket [audio-files]
    as [audio/wav] with cache directive 3600, then asks for the public URL of
    that same path and returns it cleaned. *)
Theorem upload_file_to_supabase_success (w : World) (client : Client)
    (file_path stem_name user_id : string) (t : trace)
    (content : string) (pu : PublicUrl) :
  let t1 := EvUploadCall file_path stem_name user_id :: t in
  let storage_path :=
    user_id ++ "/separated/" ++ uuid4 w t1 ++ "_" ++ stem_name ++ ".wav" in
  let t2 :=
    EvStorageUpload "audio-files" storage_path content "audio/wav" "3600" :: t1 in
  let t3 := EvGetPublicUrl "audio-files" storage_path :: t2 in
  supabase w = Some client ->
  open_read w t1 file_path = Ok content ->
  storage_upload client t2 "audio-files" storage_path content = None ->
  storage_get_public_url client t3 "audio-files" storage_path = Ok pu ->
  upload_file_to_supabase w file_path stem_name user_id t
  = (Ok (clean_public_url pu), t3).
Proof.
  intros t1 sp t2 t3 Hs Hread Hup Hget. subst t1 sp t2 t3.
  unfold upload_file_to_supabase, bind, ret, emit, ask, call, call_, try_except.
  rewrite Hs. cbv beta. rewrite Hread. cbv beta iota. rewrite Hup.
  cbv beta iota. now rewrite Hget.
Qed.

Lemma upload_file_to_supabase_success_witness :
  upload_file_to_supabase Sample.configured "/tmp/a.wav" "vocals" "U1" []
  = (Ok (Some "https://cdn/audio-files/U1/separated/id1_vocals.wav"),
     [EvGetPublicUrl "audio-files" "U1/separated/id1_vocals.wav";
      EvStorageUpload "audio-files" "U1/separated/id1_vocals.wav" "RIFF"
        "audio/wav" "3600";
      EvUploadCall "/tmp/a.wav" "vocals" "U1"]).
Proof.
  apply (upload_file_to_supabase_success Sample.configured Sample.client
           "/tmp/a.wav" "vocals" "U1" [] "RIFF"
           (UrlStr "https://cdn/audio-files/U1/separated/id1_vocals.wav?"));
    reflexivity.
Defined.

(** X15: when the local file cannot be read, the upload returns no URL and
    makes no storage call at all, with or without a client. *)
Theorem upload_file_to_supabase_unreadable (w : World)
    (file_path stem_name user_id : string) (t : trace) (e : exn) :
  open_read w (EvUploadCall file_path stem_name user_id :: t) file_path = Err e ->
  upload_file_to_supabase w file_path stem_name user_id t
  = (Ok None, EvUploadCall file_path stem_name user_id :: t).
Proof.
  intros Hread.
  unfold upload_file_to_supabase, bind, ret, emit, ask, call, call_, try_except.
  destruct (supabase w); [|reflexivity]. cbv beta. now rewrite Hread.
Qed.

Lemma upload_file_to_supabase_unreadable_witness :
  upload_file_to_supabase Sample.configured "/tmp/gone.wav" "bass" "U1" []
  = (Ok None, [EvUploadCall "/tmp/gone.wav" "bass" "U1"]).
Proof.
  apply (upload_file_to_supabase_unreadable Sample.configured "/tmp/gone.wav"
           "bass" "U1" [] (Raise "FileNotFoundError" "/tmp/gone.wav")).
  reflexivity.
Defined.

(** X16: when the storage upload raises, the upload returns no URL and the
    public URL is never asked for; when the upload is stored but asking for
    the public URL raises, the upload returns no URL either. *)
Theorem upload_file_to_supabase_storage_failure (w : World) (client : Client)
    (file_path stem_name user_id : string) (t : trace) (content : string) :
  let t1 := EvUploadCall file_path stem_name user_id :: t in
  let storage_path :=
    user_id ++ "/separated/" ++ uuid4 w t1 ++ "_" ++ stem_name ++ ".wav" in
  let t2 :=
    EvStorageUpload "audio-files" storage_path content "audio/wav" "3600" :: t1 in
  let t3 := EvGetPublicUrl "audio-files" storage_path :: t2 in
  supabase w = Some client ->
  open_read w t1 file_path = Ok content ->
  (forall e,
     storage_upload client t2 "audio-files" storage_path content = Some e ->
     upload_file_to_supabase w file_path stem_name user_id t = (Ok None, t2)) /\
  (forall e,
     storage_upload client t2 "audio-files" storage_path content = None ->
     storage_get_public_url client t3 "audio-files" storage_path = Err e ->
     upload_file_to_supabase w file_path stem_name user_id t = (Ok None, t3)).
Proof.
  intros t1 sp t2 t3 Hs Hread. subst t1 sp t2 t3.
  unfold upload_file_to_supabase, bind, ret, emit, ask, call, call_, try_except.
  rewrite Hs. cbv beta. rewrite Hread. cbv beta iota. split.
  - intros e Hup. now rewrite Hup.
  - intros e Hup Hget. rewrite Hup. cbv beta iota. now rewrite Hget.
Qed.

(** X17: the upload never raises, whatever the collaborators do; and when it
    returns a URL, that URL does not end with a question mark and the call
    made exactly one storage upload followed by one public-URL request on
    the same path. *)
Theorem upload_file_to_supabase_never_raises (w : World)
    (file_path stem_name user_id : string) (t : trace) :
  exists public_url t',
    upload_file_to_supabase w file_path stem_name user_id t
    = (Ok public_url, t') /\
    (forall r, public_url = Some r ->
       endswith "?" r = false /\
       exists storage_path content,
         t' = EvGetPublicUrl "audio-files" storage_path
              :: EvStorageUpload "audio-files" storage_path content
                   "audio/wav" "3600"
              :: EvUploadCall file_path stem_name user_id :: t).
Proof.
  destruct (upload_file_to_supabase_trace w file_path stem_name user_id t)
    as (public_url & new & Heq & _ & _ & Hsome).
  exists public_url, (new ++ t)%list. split; [exact Heq|].
  intros r Hr. destruct (Hsome r Hr) as (Hq & sp & content & ->).
  split; [exact Hq|]. now exists sp, content.
Qed.

Lemma upload_file_to_supabase_storage_failure_witness :
  upload_file_to_supabase Sample.rejecting "/tmp/a.wav" "vocals" "U1" []
  = (Ok None,
     [EvStorageUpload "audio-files" "U1/separated/id1_vocals.wav" "RIFF"
        "audio/wav" "3600";
      EvUploadCall "/tmp/a.wav" "vocals" "U1"]).
Proof.
  apply (proj1 (upload_file_to_supabase_storage_failure Sample.rejecting
                  Sample.rejecting_client "/tmp/a.wav" "vocals" "U1" [] "RIFF"
                  eq_refl eq_refl)
           (Raise "StorageException" "denied")).
  reflexivity.
Defined.

(** ** Separation Orchestrator, continued *)

Lemma removals_app (a b : trace) :
  removals (a ++ b)%list = (removals a ++ removals b)%list.
Proof.
  induction a as [|ev a IH]; [reflexivity|].
  destruct ev; simpl; now rewrite IH.
Qed.

Lemma removals_rev_map (files : list string) :
  removals (rev (map EvRemove files)) = rev files.
Proof.
  induction files as [|f files IH]; [reflexivity|].
  simpl. rewrite removals_app, IH. reflexivity.
Qed.

Lemma storage_uploads_app (a b : trace) :
  storage_uploads (a ++ b)%list = (storage_uploads a ++ storage_uploads b)%list.
Proof.
  induction a as [|ev a IH]; [reflexivity|].
  destruct ev; simpl; now rewrite IH.
Qed.

Lemma upload_calls_app (a b : trace) :
  upload_calls (a ++ b)%list = (upload_calls a ++ upload_calls b)%list.
Proof.
  induction a as [|ev a IH]; [reflexivity|].
  destruct ev; simpl; now rewrite IH.
Qed.

(** Removing the local files adds one [os.remove] per file, in order, and
    nothing else, whatever [os.remove] answers. *)
Lemma cleanup_trace (w : World) (files : list string) (t : trace) :
  for_each files (cleanup w) tt t = (Ok tt, (rev (map EvRemove files) ++ t)%list).
Proof.
  revert t. induction files as [|f files IH]; intros t; [reflexivity|].
  cbn [for_each]. unfold bind at 1. unfold cleanup at 1. run_monad.
  destruct (os_remove w (EvRemove f :: t) f); rewrite IH;
    now rewrite <- app_assoc.
Qed.

Section OutputLoop.

Variable w : World.
Variables two_stems model user_id : string.

(** A property of the URLs [upload_file_to_supabase] returns. *)
Variable P : option string -> Prop.
Hypothesis upload_P :
  forall file_path stem_name t public_url t',
    upload_file_to_supabase w file_path stem_name user_id t
    = (Ok public_url, t') ->
    P public_url.

(** The loop adds upload events for the owner only, queues exactly the
    paths of the kept outputs for removal, and every URL it records
    satisfies [P]. *)
Lemma process_outputs_trace (items : list OutputObj) :
  forall (k : nat) (output_files : list OutputFile.t)
         (to_cleanup : list string) (t : trace),
  exists new_files new_cleanup new,
    for_each (enumerate_from k items)
      (process_output w two_stems model user_id) (output_files, to_cleanup) t
    = (Ok (app output_files new_files, app to_cleanup new_cleanup),
       app new t) /\
    Forall (upload_event_ok user_id) new /\
    removals new = [] /\
    map Some new_cleanup
    = map (fun it => local_file_path_of (snd it)) (kept_from w k items) /\
    Forall (fun f => P (OutputFile.url f)) new_files.
Proof.
  induction items as [|output_file items IH];
    intros k output_files to_cleanup t.
  - exists [], [], []. simpl. unfold ret. rewrite !app_nil_r.
    repeat split; auto.
  - unfold kept_from. cbn [enumerate_from for_each filter snd].
    change (filter (fun it => readable w (snd it))
              (enumerate_from (S k) items))
      with (kept_from w (S k) items).
    unfold bind at 1. unfold process_output at 1.
    assert (Hr : readable w output_file
                 = match local_file_path_of output_file with
                   | Some p => os_path_exists w p
                   | None => false
                   end) by reflexivity.
    rewrite Hr. clear Hr.
    destruct (local_file_path_of output_file) as [p|] eqn:Hp.
    + destruct (os_path_exists w p) eqn:Hex.
      * destruct (get_stem_name_total (Z.of_nat k) two_stems model)
          as [name Hn]; [lia|].
        destruct (upload_file_to_supabase_trace w p name user_id t)
          as (public_url & new1 & Hup & Hok1 & Hrm1 & _).
        unfold bind at 1. unfold lift, call. rewrite Hn.
        unfold bind at 1. rewrite Hup. unfold ret at 1.
        destruct (IH (S k)
                    (app output_files
                       [OutputFile.Build (Z.of_nat k) public_url name])
                    (app to_cleanup [p]) (app new1 t))
          as (nf & nc & new2 & Hrun & Hok2 & Hrm2 & Hpaths & HP).
        exists (OutputFile.Build (Z.of_nat k) public_url name :: nf),
               (p :: nc), (app new2 new1).
        split. { rewrite Hrun. now rewrite <- !app_assoc. }
        split. { apply Forall_app. split; assumption. }
        split. { rewrite removals_app, Hrm1, Hrm2. reflexivity. }
        split. { simpl. rewrite Hp. now rewrite Hpaths. }
        constructor; [|exact HP]. simpl. eapply upload_P. exact Hup.
      * unfold ret at 1. apply IH.
    + unfold ret at 1. apply IH.
Qed.

End OutputLoop.

(** The steps of a request whose three Sieve calls return: the output loop
    runs from the trace of those calls, then the queued files are removed,
    and the response carries what the loop collected. *)
Lemma separate_audio_steps (w : World) (request : SeparationRequest.t)
    (t : trace) (result : RunResult) :
  sieve_File w (SeparationRequest.audio_url request) = None ->
  sieve_function_get w "sieve/demucs" = None ->
  demucs_run w (demucs_args request) = Ok result ->
  exists user_id files to_cleanup t1,
    extract_user_id (SeparationRequest.audio_url request) = Ok user_id /\
    match result with
    | Iterable items =>
        for_each (enumerate items)
          (process_output w (Resolved.two_stems (resolve request))
             (Resolved.model (resolve request)) user_id) ([], [])
    | NotIterable => ret ([], [])
    end (EvDemucsRun (demucs_args request)
         :: EvFunctionGet "sieve/demucs"
         :: EvSieveFile (SeparationRequest.audio_url request) :: t)
    = (Ok (files, to_cleanup), t1) /\
    separate_audio w request t
    = (Returned
         (SeparationResponse.Build "completed"
            "Separation completed successfully" files
            (Parameters.Build
               (Resolved.model (resolve request))
               (Resolved.two_stems (resolve request))
               (Resolved.overlap (resolve request))
               (Resolved.shifts (resolve request))
               (SeparationRequest.audio_format request))),
       app (rev (map EvRemove to_cleanup)) t1).
Proof.
  intros Hfile Hget Hrun.
  destruct (extract_user_id_total (SeparationRequest.audio_url request))
    as [user_id Hu].
  unfold demucs_args in *.
  unfold separate_audio, separate_audio_body.
  unfold bind, lift, check, call, call_, emit. cbv zeta beta.
  rewrite Hu, Hfile, Hget, Hrun.
  set (t0 := EvDemucsRun _ :: _ :: _ :: t).
  assert (Hstage : exists files to_cleanup t1,
    match result with
    | Iterable items =>
        for_each (enumerate items)
          (process_output w (Resolved.two_stems (resolve request))
             (Resolved.model (resolve request)) user_id) ([], [])
    | NotIterable => ret ([], [])
    end t0 = (Ok (files, to_cleanup), t1)).
  { destruct result as [items|].
    - destruct (process_outputs_spec w (Resolved.two_stems (resolve request))
                  (Resolved.model (resolve request)) user_id items 0%nat [] [] t0)
        as (nf & nc & calls & t1 & Hloop & _).
      now exists nf, nc, t1.
    - now exists [], [], t0. }
  destruct Hstage as (files & to_cleanup & t1 & Hloop).
  exists user_id, files, to_cleanup, t1.
  split; [reflexivity|]. split; [exact Hloop|].
  rewrite Hloop, cleanup_trace. reflexivity.
Qed.

(** What a request whose three Sieve calls return does, for a property [P]
    that every URL returned by [upload_file_to_supabase] has. *)
Lemma separate_audio_run (w : World) (request : SeparationRequest.t)
    (t : trace) (result : RunResult) (P : option string -> Prop) :
  (forall file_path stem_name user_id t0 public_url t',
     upload_file_to_supabase w file_path stem_name user_id t0
     = (Ok public_url, t') -> P public_url) ->
  sieve_File w (SeparationRequest.audio_url request) = None ->
  sieve_function_get w "sieve/demucs" = None ->
  demucs_run w (demucs_args request) = Ok result ->
  exists user_id files to_cleanup new,
    extract_user_id (SeparationRequest.audio_url request) = Ok user_id /\
    separate_audio w request t
    = (Returned
         (SeparationResponse.Build "completed"
            "Separation completed successfully" files
            (Parameters.Build
               (Resolved.model (resolve request))
               (Resolved.two_stems (resolve request))
               (Resolved.overlap (resolve request))
               (Resolved.shifts (resolve request))
               (SeparationRequest.audio_format request))),
       app (rev (map EvRemove to_cleanup))
         (app new
            (EvDemucsRun (demucs_args request)
             :: EvFunctionGet "sieve/demucs"
             :: EvSieveFile (SeparationRequest.audio_url request) :: t))) /\
    Forall (upload_event_ok user_id) new /\
    removals new = [] /\
    map Some to_cleanup
    = map (fun it => local_file_path_of (snd it)) (kept_outputs w result) /\
    length files = length to_cleanup /\
    Forall (fun f => P (OutputFile.url f)) files /\
    Forall (fun f => get_stem_name (OutputFile.index f)
                       (Resolved.two_stems (resolve request))
                       (Resolved.model (resolve request))
                     = Ok (OutputFile.stem_name f)) files.
Proof.
  intros HP Hfile Hget Hrun.
  destruct (separate_audio_steps w request t result Hfile Hget Hrun)
    as (user_id & files & to_cleanup & t1 & Hu & Hloop & Heq).
  exists user_id, files, to_cleanup.
  set (t0 := EvDemucsRun (demucs_args request)
             :: EvFunctionGet "sieve/demucs"
             :: EvSieveFile (SeparationRequest.audio_url request) :: t) in *.
  destruct result as [items|].
  - destruct (process_outputs_trace w (Resolved.two_stems (resolve request))
                (Resolved.model (resolve request)) user_id P
                (fun p s t0 u t' => HP p s user_id t0 u t')
                items 0%nat [] [] t0)
      as (nf & nc & new & Hrun1 & Hok & Hrm & Hpaths & HPf).
    destruct (process_outputs_spec w (Resolved.two_stems (resolve request))
                (Resolved.model (resolve request)) user_id items 0%nat [] [] t0)
      as (nf' & nc' & calls & t1' & Hrun2 & Hidx & Hnames & _).
    unfold enumerate in Hloop.
    rewrite Hloop in Hrun1, Hrun2. simpl in Hrun1, Hrun2.
    injection Hrun1 as -> -> ->. injection Hrun2 as <- _ _.
    exists new. split; [exact Hu|]. split; [exact Heq|].
    split; [exact Hok|]. split; [exact Hrm|]. split; [exact Hpaths|].
    split.
    { rewrite <- (length_map OutputFile.index), Hidx, length_map.
      rewrite <- (length_map Some nc), Hpaths, length_map. reflexivity. }
    split; [exact HPf | exact Hnames].
  - unfold ret in Hloop. injection Hloop as <- <- <-.
    exists []. split; [exact Hu|]. split; [exact Heq|].
    repeat split; constructor.
Qed.

(** A request the handler answers with a response made its three Sieve
    calls, and none of them raised. *)
Lemma separate_audio_returned_inv (w : World) (request : SeparationRequest.t)
    (t t' : trace) (body : SeparationResponse.t) :
  separate_audio w request t = (Returned body, t') ->
  sieve_File w (SeparationRequest.audio_url request) = None /\
  sieve_function_get w "sieve/demucs" = None /\
  exists result, demucs_run w (demucs_args request) = Ok result.
Proof.
  intros Hret.
  destruct (extract_user_id_total (SeparationRequest.audio_url request))
    as [user_id Hu].
  revert Hret. unfold demucs_args.
  unfold separate_audio, separate_audio_body.
  unfold bind, lift, check, call, call_, emit. cbv zeta beta. rewrite Hu.
  destruct (sieve_File w _) as [e|]; [discriminate|].
  destruct (sieve_function_get w _) as [e|]; [discriminate|].
  destruct (demucs_run w _) as [result|e]; [|discriminate].
  intros _. eauto.
Qed.

(** The two ways a request can fail before [demucs.run] is called. *)
Lemma separate_audio_setup_failure (w : World) (request : SeparationRequest.t)
    (t : trace) (e : exn) :
  (sieve_File w (SeparationRequest.audio_url request) = Some e ->
   separate_audio w request t
   = (HTTPException 500 ("Failed to complete separation: " ++ exn_str e),
      EvSieveFile (SeparationRequest.audio_url request) :: t)) /\
  (sieve_File w (SeparationRequest.audio_url request) = None ->
   sieve_function_get w "sieve/demucs" = Some e ->
   separate_audio w request t
   = (HTTPException 500 ("Failed to complete separation: " ++ exn_str e),
      EvFunctionGet "sieve/demucs"
      :: EvSieveFile (SeparationRequest.audio_url request) :: t)).
Proof.
  destruct (extract_user_id_total (SeparationRequest.audio_url request))
    as [user_id Hu].
  unfold separate_audio, separate_audio_body.
  unfold bind, lift, check, call, call_, emit. cbv zeta beta. rewrite Hu.
  split.
  - intros Hfile. now rewrite Hfile.
  - intros Hfile Hget. now rewrite Hfile, Hget.
Qed.

Lemma extract_user_id_is_a_segment_aux (audio_url user_id : string) :
  extract_user_id audio_url = Ok user_id ->
  user_id <> "" /\ ~ In "/"%char (list_ascii_of_string user_id).
Proof.
  unfold extract_user_id.
  destruct (scan_user_id (split "/" audio_url) (enumerate (split "/" audio_url)))
    as [[u|]|e] eqn:Hscan; try discriminate.
  - apply scan_user_id_In in Hscan. unfold truthy_str.
    destruct (String.eqb_spec u "") as [->|Hne]; simpl; intros [= <-].
    + split; [discriminate|]. simpl. intuition discriminate.
    + split; [exact Hne|].
      eapply (split_aux_pieces "/" audio_url ""); [simpl; tauto | exact Hscan].
  - intros [= <-]. split; [discriminate|]. simpl. intuition discriminate.
Qed.

Lemma storage_uploads_removals (files : list string) :
  storage_uploads (rev (map EvRemove files)) = [].
Proof.
  induction files as [|f files IH]; [reflexivity|].
  simpl. rewrite storage_uploads_app, IH. reflexivity.
Qed.

Lemma upload_calls_removals (files : list string) :
  upload_calls (rev (map EvRemove files)) = [].
Proof.
  induction files as [|f files IH]; [reflexivity|].
  simpl. rewrite upload_calls_app, IH. reflexivity.
Qed.

Lemma storage_path_segments (user_id file_id stem_name : string) :
  ~ In "/"%char (list_ascii_of_string user_id) ->
  exists segments,
    split "/" (user_id ++ "/separated/" ++ file_id ++ "_" ++ stem_name ++ ".wav")
    = user_id :: "separated" :: segments.
Proof.
  intros Hslash. unfold split.
  change (user_id ++ "/separated/" ++ file_id ++ "_" ++ stem_name ++ ".wav")%string
    with (user_id ++ String "/"
            ("separated" ++ String "/" (file_id ++ "_" ++ stem_name ++ ".wav")))%string.
  rewrite split_aux_app, split_aux_no_sep by assumption.
  rewrite split_aux_app. simpl. eauto.
Qed.

Lemma storage_uploads_ok (user_id : string) (new : trace) :
  Forall (upload_event_ok user_id) new ->
  Forall (fun storage_path =>
            exists file_id stem_name,
              storage_path
              = (user_id ++ "/separated/" ++ file_id ++ "_" ++ stem_name
                 ++ ".wav")%string)
    (storage_uploads new).
Proof.
  induction 1 as [|ev new Hev _ IH]; [constructor|].
  destruct ev; simpl; try exact IH.
  constructor; [|exact IH]. simpl in Hev. tauto.
Qed.

(** Entries and queued paths go together one by one with the kept
    outputs. *)
Lemma entries_and_cleanup_aligned (w : World) (items : list OutputObj) :
  forall (kept : list (nat * OutputObj)) (files : list OutputFile.t)
         (to_cleanup : list string),
    (forall it, In it kept -> In it (kept_from w 0 items)) ->
    map OutputFile.index files = map (fun it => Z.of_nat (fst it)) kept ->
    map Some to_cleanup = map (fun it => local_file_path_of (snd it)) kept ->
    Forall2 (fun f p =>
               p <> "" /\ os_path_exists w p = true /\
               exists i,
                 OutputFile.index f = Z.of_nat i /\
                 nth_error items i = Some (WithPath (Some p)))
      files to_cleanup.
Proof.
  induction kept as [|[i o] kept IH]; intros files to_cleanup Hin Hidx Hpaths.
  - destruct files; [|discriminate]. destruct to_cleanup; [|discriminate].
    constructor.
  - destruct files as [|f files]; [discriminate|].
    destruct to_cleanup as [|q to_cleanup]; [discriminate|].
    simpl in Hidx, Hpaths.
    injection Hidx as Hi Hidx. injection Hpaths as Hq Hpaths.
    constructor.
    + destruct (kept_from_items w items (i, o) (Hin _ (or_introl eq_refl)))
        as (p & Hnth & Ho & Hne & Hex).
      simpl in *. subst o.
      assert (Hlp : local_file_path_of (WithPath (Some p)) = Some p).
      { unfold local_file_path_of, truthy_str.
        apply String.eqb_neq in Hne. now rewrite Hne. }
      rewrite Hlp in Hq. injection Hq as ->.
      split; [exact Hne|]. split; [exact Hex|]. now exists i.
    + apply IH; auto. intros it Hit. apply Hin. now right.
Qed.

(** X18: whenever the handler returns a response, it has ended by calling
    [os.remove] once for every entry of [output_files], on the path of the
    output at that entry's position (a non-empty path that exists on disk)
    and in the order of the entries; these removals come after every upload
    of the request, and nothing else is removed. *)
Theorem local_files_are_removed_last (w : World)
    (request : SeparationRequest.t) (t t' : trace)
    (body : SeparationResponse.t) :
  separate_audio w request t = (Returned body, t') ->
  exists result to_cleanup rest,
    demucs_run w (demucs_args request) = Ok result /\
    t' = app (rev (map EvRemove to_cleanup)) rest /\
    removals rest = removals t /\
    upload_calls t' = upload_calls rest /\
    Forall2 (fun f p =>
               p <> "" /\ os_path_exists w p = true /\
               exists i items,
                 OutputFile.index f = Z.of_nat i /\
                 result = Iterable items /\
                 nth_error items i = Some (WithPath (Some p)))
      (SeparationResponse.output_files body) to_cleanup.
Proof.
  intros Hret.
  destruct (separate_audio_returned_inv w request t t' body Hret)
    as (Hfile & Hget & result & Hrun).
  destruct (separate_audio_run w request t result (fun _ => True)
              (fun _ _ _ _ _ _ _ => I) Hfile Hget Hrun)
    as (user_id & files & to_cleanup & new & _ & Heq & _ & Hrm & Hpaths & _).
  destruct (separate_audio_success w request t result Hfile Hget Hrun)
    as (user_id' & files' & calls & t2 & _ & Heq' & Hidx & _).
  rewrite Heq in Heq'. injection Heq' as <- _.
  rewrite Heq in Hret. injection Hret as <- <-.
  exists result, to_cleanup. eexists.
  split; [exact Hrun|]. split; [reflexivity|]. split.
  { rewrite removals_app, Hrm. reflexivity. }
  split.
  { rewrite upload_calls_app, upload_calls_removals. reflexivity. }
  simpl. destruct result as [items|].
  - simpl in Hidx, Hpaths.
    pose proof (entries_and_cleanup_aligned w items (kept_from w 0 items)
                  files to_cleanup (fun it H => H) Hidx Hpaths) as Hal.
    eapply Forall2_impl; [|exact Hal].
    intros f p (Hne & Hex & i & Hi & Hnth).
    split; [exact Hne|]. split; [exact Hex|]. now exists i, items.
  - simpl in Hidx, Hpaths.
    destruct files; [|discriminate]. destruct to_cleanup; [|discriminate].
    constructor.
Qed.

Lemma local_files_are_removed_last_witness :
  exists body to_cleanup rest,
    separate_audio Sample.configured Sample.request []
    = (Returned body, app (rev (map EvRemove to_cleanup)) rest) /\
    removals rest = [] /\
    length (SeparationResponse.output_files body) = length to_cleanup.
Proof.
  destruct (separate_audio Sample.configured Sample.request [])
    as [r t'] eqn:Hrun.
  destruct r as [body|code detail]; [|vm_compute in Hrun; discriminate].
  destruct (local_files_are_removed_last Sample.configured Sample.request
              [] t' body Hrun)
    as (result & to_cleanup & rest & _ & -> & Hrm & _ & Hal).
  exists body, to_cleanup, rest. split; [reflexivity|]. split; [exact Hrm|].
  clear - Hal. induction Hal; simpl; congruence.
Defined.

(** X19: every object the handler stores for a request goes to a path
    [owner/separated/<id>_<stem>.wav] where [owner] is the owner derived
    from the request's URL; split at slashes, such a path starts with the
    segments [owner] and [separated]. *)
Theorem stems_are_stored_under_owner (w : World)
    (request : SeparationRequest.t) (t : trace) (result : RunResult) :
  sieve_File w (SeparationRequest.audio_url request) = None ->
  sieve_function_get w "sieve/demucs" = None ->
  demucs_run w (demucs_args request) = Ok result ->
  exists user_id body t' paths,
    extract_user_id (SeparationRequest.audio_url request) = Ok user_id /\
    separate_audio w request t = (Returned body, t') /\
    storage_uploads t' = app paths (storage_uploads t) /\
    Forall (fun storage_path =>
              (exists file_id stem_name,
                 storage_path
                 = (user_id ++ "/separated/" ++ file_id ++ "_" ++ stem_name
                    ++ ".wav")%string) /\
              exists segments,
                split "/" storage_path = user_id :: "separated" :: segments)
      paths.
Proof.
  intros Hfile Hget Hrun.
  destruct (separate_audio_run w request t result (fun _ => True)
              (fun _ _ _ _ _ _ _ => I) Hfile Hget Hrun)
    as (user_id & files & to_cleanup & new & Hu & Heq & Hok & _).
  eexists user_id, _, _, (storage_uploads new).
  split; [exact Hu|]. split; [exact Heq|]. split.
  - rewrite storage_uploads_app, storage_uploads_removals.
    rewrite storage_uploads_app. reflexivity.
  - destruct (extract_user_id_is_a_segment_aux
                (SeparationRequest.audio_url request) user_id Hu) as [_ Hslash].
    apply storage_uploads_ok in Hok.
    eapply Forall_impl; [|exact Hok].
    intros sp (file_id & stem_name & ->). split; [eauto|].
    now apply storage_path_segments.
Qed.

Lemma stems_are_stored_under_owner_witness :
  exists body t',
    separate_audio Sample.configured Sample.request [] = (Returned body, t') /\
    Forall (fun storage_path =>
              exists segments,
                split "/" storage_path = "U1" :: "separated" :: segments)
      (storage_uploads t').
Proof.
  destruct (stems_are_stored_under_owner Sample.configured Sample.request []
              (Iterable Sample.outputs) eq_refl eq_refl eq_refl)
    as (user_id & body & t' & paths & Hu & Heq & Hst & Hall).
  injection Hu as <-.
  exists body, t'. split; [exact Heq|].
  rewrite Hst, app_nil_r. eapply Forall_impl; [|exact Hall].
  intros sp [_ H]. exact H.
Defined.

(** X20: what [os.remove] answers (it may raise for every file) changes
    neither the response nor the calls the handler makes. *)
Theorem response_ignores_os_remove (w : World)
    (f : trace -> string -> option exn)
    (request : SeparationRequest.t) (t : trace) :
  separate_audio (with_os_remove w f) request t = separate_audio w request t.
Proof.
  unfold separate_audio, separate_audio_body.
  unfold bind, lift, check, call, call_, emit. cbv zeta beta.
  cbn [with_os_remove sieve_File sieve_function_get demucs_run].
  destruct (extract_user_id _) as [user_id|e]; [|reflexivity].
  destruct (sieve_File w _) as [e|]; [reflexivity|].
  destruct (sieve_function_get w _) as [e|]; [reflexivity|].
  destruct (demucs_run w _) as [result|e]; [|reflexivity].
  change (process_output (with_os_remove w f)) with (process_output w).
  match goal with
  | |- context [match result with
                | Iterable items => @?a items
                | NotIterable => ?b
                end ?t0] =>
      destruct (match result with
                | Iterable items => a items
                | NotIterable => b
                end t0) as [[[files to_cleanup]|e] t1]
  end; [|reflexivity].
  now rewrite !cleanup_trace.
Qed.

(** X21: when building the [sieve.File] raises, the handler answers HTTP
    500 with that exception's message and calls nothing else; when looking
    up the function raises, it answers HTTP 500 with that message and
    [demucs.run] is not called. *)
Theorem sieve_setup_failure_is_http_500 (w : World)
    (request : SeparationRequest.t) (t : trace) (e : exn) :
  sieve_File w (SeparationRequest.audio_url request) = Some e
  \/ (sieve_File w (SeparationRequest.audio_url request) = None /\
      sieve_function_get w "sieve/demucs" = Some e) ->
  exists t',
    separate_audio w request t
    = (HTTPException 500 ("Failed to complete separation: " ++ exn_str e), t') /\
    demucs_calls t' = demucs_calls t /\
    upload_calls t' = upload_calls t /\
    removals t' = removals t /\
    (sieve_File w (SeparationRequest.audio_url request) = Some e ->
     t' = EvSieveFile (SeparationRequest.audio_url request) :: t).
Proof.
  destruct (separate_audio_setup_failure w request t e) as [H1 H2].
  intros [Hfile|[Hfile Hget]].
  - eexists. split; [exact (H1 Hfile)|]. repeat split; reflexivity.
  - eexists. split; [exact (H2 Hfile Hget)|]. repeat split; try reflexivity.
    congruence.
Qed.

Lemma sieve_setup_failure_is_http_500_witness :
  exists t',
    separate_audio
      (Build_World None (fun _ => "id") (fun _ _ => Ok "")
         (fun _ => false) (fun _ _ => None)
         (fun _ => Some (Raise "ValueError" "bad url"))
         (fun _ => None) (fun _ => Ok NotIterable))
      Sample.request []
    = (HTTPException 500 "Failed to complete separation: bad url", t') /\
    demucs_calls t' = [].
Proof.
  destruct (sieve_setup_failure_is_http_500
              (Build_World None (fun _ => "id") (fun _ _ => Ok "")
                 (fun _ => false) (fun _ _ => None)
                 (fun _ => Some (Raise "ValueError" "bad url"))
                 (fun _ => None) (fun _ => Ok NotIterable))
              Sample.request [] (Raise "ValueError" "bad url")
              (or_introl eq_refl))
    as (t' & Heq & Hd & _).
  exists t'. split; [exact Heq | exact Hd].
Defined.

(** X22: a response is returned only if [sieve.File], [function.get] and
    [demucs.run] all returned; every error the handler raises is an HTTP 500
    whose detail is the fixed prefix followed by an exception message; and no
    status code other than 200 and 500 is ever produced. *)
Theorem separate_audio_answers_200_or_500 (w : World)
    (request : SeparationRequest.t) (t : trace) :
  (forall body t',
     separate_audio w request t = (Returned body, t') ->
     sieve_File w (SeparationRequest.audio_url request) = None /\
     sieve_function_get w "sieve/demucs" = None /\
     exists result, demucs_run w (demucs_args request) = Ok result) /\
  (forall status_code detail t',
     separate_audio w request t = (HTTPException status_code detail, t') ->
     status_code = 500 /\
     exists e, detail = "Failed to complete separation: " ++ exn_str e) /\
  (http_status (fst (separate_audio w request t)) = 200
   \/ http_status (fst (separate_audio w request t)) = 500).
Proof.
  assert (Hcases :
    (exists body t', separate_audio w request t = (Returned body, t'))
    \/ (exists e t', separate_audio w request t
                     = (HTTPException 500
                          ("Failed to complete separation: " ++ exn_str e), t'))).
  { destruct (sieve_File w (SeparationRequest.audio_url request)) as [e|] eqn:Hfile.
    { right. exists e. eexists.
      exact (proj1 (separate_audio_setup_failure w request t e) Hfile). }
    destruct (sieve_function_get w "sieve/demucs") as [e|] eqn:Hget.
    { right. exists e. eexists.
      exact (proj2 (separate_audio_setup_failure w request t e) Hfile Hget). }
    destruct (demucs_run w (demucs_args request)) as [result|e] eqn:Hrun.
    - left.
      destruct (separate_audio_steps w request t result Hfile Hget Hrun)
        as (user_id & files & to_cleanup & t1 & _ & _ & Heq).
      eauto.
    - right. exists e.
      destruct (extract_user_id_total (SeparationRequest.audio_url request))
        as [user_id Hu].
      unfold demucs_args in Hrun.
      unfold separate_audio, separate_audio_body.
      unfold bind, lift, check, call, call_, emit. cbv zeta beta.
      rewrite Hu, Hfile, Hget, Hrun. eauto. }
  split; [|split].
  - intros body t' Heq. eapply separate_audio_returned_inv. exact Heq.
  - intros status_code detail t' Heq.
    destruct Hcases as [(body & t2 & H)|(e & t2 & H)];
      rewrite H in Heq; [discriminate|].
    injection Heq as <- <- _. split; [reflexivity | now exists e].
  - destruct Hcases as [(body & t2 & H)|(e & t2 & H)]; rewrite H; simpl; auto.
Qed.

(** X23: when [demucs.run] returns something that cannot be iterated, the
    request still completes, with an empty [output_files], and nothing is
    uploaded or removed. *)
Theorem non_iterable_result_gives_no_outputs (w : World)
    (request : SeparationRequest.t) (t : trace) :
  sieve_File w (SeparationRequest.audio_url request) = None ->
  sieve_function_get w "sieve/demucs" = None ->
  demucs_run w (demucs_args request) = Ok NotIterable ->
  exists body,
    separate_audio w request t
    = (Returned body,
       EvDemucsRun (demucs_args request)
       :: EvFunctionGet "sieve/demucs"
       :: EvSieveFile (SeparationRequest.audio_url request) :: t) /\
    SeparationResponse.status body = "completed" /\
    SeparationResponse.output_files body = [].
Proof.
  intros Hfile Hget Hrun.
  destruct (separate_audio_steps w request t NotIterable Hfile Hget Hrun)
    as (user_id & files & to_cleanup & t1 & _ & Hloop & Heq).
  unfold ret in Hloop. injection Hloop as <- <- <-.
  eexists. split; [exact Heq|]. split; reflexivity.
Qed.

Lemma non_iterable_result_gives_no_outputs_witness :
  exists body t',
    separate_audio Sample.opaque_result Sample.request [] = (Returned body, t') /\
    SeparationResponse.output_files body = [] /\
    upload_calls t' = [].
Proof.
  destruct (non_iterable_result_gives_no_outputs Sample.opaque_result
              Sample.request [] eq_refl eq_refl eq_refl)
    as (body & Heq & _ & Hout).
  eexists body, _. split; [exact Heq|]. split; [exact Hout | reflexivity].
Defined.

Lemma resolve_two_stems_single (request : SeparationRequest.t) (s : string) :
  SeparationRequest.selected_stems request = Some [s] ->
  In s single_stem_names ->
  Resolved.two_stems (resolve request) = s.
Proof.
  intros Hsel Hin. unfold resolve. rewrite Hsel.
  apply contains_In in Hin. rewrite Hin.
  now destruct (quality_is_pro (SeparationRequest.quality request)).
Qed.

(** X24: for a request that selects exactly one of the six stems, every
    entry of the response is named after it: the entry with index 0 carries
    the stem's name and every other entry [no_] followed by it, and the
    response echoes the stem as two-stem target. *)
Theorem single_stem_outputs_are_named_after_it (w : World)
    (request : SeparationRequest.t) (t : trace) (result : RunResult)
    (s : string) :
  SeparationRequest.selected_stems request = Some [s] ->
  In s ["vocals"; "drums"; "bass"; "other"; "guitar"; "piano"] ->
  sieve_File w (SeparationRequest.audio_url request) = None ->
  sieve_function_get w "sieve/demucs" = None ->
  demucs_run w (demucs_args request) = Ok result ->
  exists body t',
    separate_audio w request t = (Returned body, t') /\
    Parameters.two_stems (SeparationResponse.parameters body) = s /\
    Forall (fun f => OutputFile.stem_name f
                     = if OutputFile.index f =? 0 then s else "no_" ++ s)
      (SeparationResponse.output_files body).
Proof.
  intros Hsel Hin Hfile Hget Hrun.
  pose proof (resolve_two_stems_single request s Hsel Hin) as Hts.
  assert (Hne : s <> "None").
  { intros ->. simpl in Hin. intuition discriminate. }
  destruct (separate_audio_run w request t result (fun _ => True)
              (fun _ _ _ _ _ _ _ => I) Hfile Hget Hrun)
    as (user_id & files & to_cleanup & new & _ & Heq & _ & _ & _ & _ & _
        & Hnames).
  eexists _, _. split; [exact Heq|]. simpl. split; [exact Hts|].
  eapply Forall_impl; [|exact Hnames].
  intros f Hf. rewrite Hts, get_stem_name_two_stem_mode in Hf by assumption.
  now injection Hf as <-.
Qed.

Lemma single_stem_outputs_are_named_after_it_witness :
  exists body t',
    separate_audio Sample.configured Sample.vocals_request []
    = (Returned body, t') /\
    Parameters.two_stems (SeparationResponse.parameters body) = "vocals" /\
    Forall (fun f => OutputFile.stem_name f
                     = if OutputFile.index f =? 0 then "vocals"
                       else "no_" ++ "vocals")
      (SeparationResponse.output_files body).
Proof.
  apply (single_stem_outputs_are_named_after_it Sample.configured
           Sample.vocals_request [] (Iterable Sample.outputs) "vocals");
    try reflexivity.
  simpl. tauto.
Defined.

Lemma upload_rejected (w : World) :
  (forall client, supabase w = Some client ->
     forall t bucket storage_path content,
       storage_upload client t bucket storage_path content <> None) ->
  forall file_path stem_name user_id t public_url t',
    upload_file_to_supabase w file_path stem_name user_id t
    = (Ok public_url, t') ->
    public_url = None.
Proof.
  intros Hrej file_path stem_name user_id t public_url t'.
  unfold upload_file_to_supabase, bind, ret, emit, ask, call, call_, try_except.
  destruct (supabase w) as [client|] eqn:Hs; [|now intros [= <- _]].
  cbv beta.
  destruct (open_read w _ file_path) as [content|e]; [|now intros [= <- _]].
  cbv beta iota.
  destruct (storage_upload client _ _ _ _) as [e|] eqn:Hup;
    [now intros [= <- _]|].
  destruct (Hrej client eq_refl _ _ _ _ Hup).
Qed.

(** X25: when the bucket refuses every upload, every response the handler
    returns has status [completed] and a null [url] in every entry: a
    refused upload is never reported with a URL. *)
Theorem rejected_uploads_give_null_urls (w : World)
    (request : SeparationRequest.t) (t t' : trace)
    (body : SeparationResponse.t) :
  (forall client, supabase w = Some client ->
     forall t0 bucket storage_path content,
       storage_upload client t0 bucket storage_path content <> None) ->
  separate_audio w request t = (Returned body, t') ->
  SeparationResponse.status body = "completed" /\
  Forall (fun f => OutputFile.url f = None)
    (SeparationResponse.output_files body).
Proof.
  intros Hrej Hret.
  destruct (separate_audio_returned_inv w request t t' body Hret)
    as (Hfile & Hget & result & Hrun).
  destruct (separate_audio_run w request t result (fun u => u = None)
              (upload_rejected w Hrej) Hfile Hget Hrun)
    as (user_id & files & to_cleanup & new & _ & Heq & _ & _ & _ & _ & Hnull
        & _).
  rewrite Heq in Hret. injection Hret as <- _. simpl.
  split; [reflexivity | exact Hnull].
Qed.

Lemma rejected_uploads_give_null_urls_witness :
  exists body t',
    separate_audio Sample.rejecting Sample.request [] = (Returned body, t') /\
    SeparationResponse.status body = "completed" /\
    Forall (fun f => OutputFile.url f = None)
      (SeparationResponse.output_files body).
Proof.
  destruct (separate_audio Sample.rejecting Sample.request [])
    as [r t'] eqn:Hrun.
  destruct r as [body|code detail]; [|vm_compute in Hrun; discriminate].
  exists body, t'. split; [reflexivity|].
  apply (rejected_uploads_give_null_urls Sample.rejecting Sample.request
           [] t' body); [|exact Hrun].
  intros client [= <-] t0 bucket storage_path content. discriminate.
Defined.

Lemma upload_url_has_no_question_mark (w : World)
    (file_path stem_name user_id : string) (t : trace)
    (public_url : option string) (t' : trace) :
  upload_file_to_supabase w file_path stem_name user_id t
  = (Ok public_url, t') ->
  forall r, public_url = Some r -> endswith "?" r = false.
Proof.
  intros Heq r Hr.
  destruct (upload_file_to_supabase_trace w file_path stem_name user_id t)
    as (public_url' & new & Heq' & _ & _ & Hsome).
  rewrite Heq in Heq'. injection Heq' as <- _.
  now destruct (Hsome r Hr).
Qed.

(** X26: in every response the handler returns, whatever the collaborators
    did, the status is [completed], each entry's [stem_name] is the name
    [get_stem_name] gives its [index] under the echoed two-stem target and
    model, and its [url], when not null, does not end with a question
    mark. *)
Theorem response_entries_are_well_formed (w : World)
    (request : SeparationRequest.t) (t t' : trace)
    (body : SeparationResponse.t) :
  separate_audio w request t = (Returned body, t') ->
  SeparationResponse.status body = "completed" /\
  Forall (fun f =>
            get_stem_name (OutputFile.index f)
              (Parameters.two_stems (SeparationResponse.parameters body))
              (Parameters.model (SeparationResponse.parameters body))
            = Ok (OutputFile.stem_name f) /\
            forall r, OutputFile.url f = Some r -> endswith "?" r = false)
    (SeparationResponse.output_files body).
Proof.
  intros Hret.
  destruct (separate_audio_returned_inv w request t t' body Hret)
    as (Hfile & Hget & result & Hrun).
  destruct (separate_audio_run w request t result
              (fun u => forall r, u = Some r -> endswith "?" r = false)
              (upload_url_has_no_question_mark w) Hfile Hget Hrun)
    as (user_id & files & to_cleanup & new & _ & Heq & _ & _ & _ & _ & Hurl
        & Hnames).
  rewrite Heq in Hret. injection Hret as <- _. simpl.
  split; [reflexivity|].
  apply Forall_forall. intros f Hin.
  rewrite Forall_forall in Hurl, Hnames. split; [now apply Hnames|].
  now apply Hurl.
Qed.

Lemma response_entries_are_well_formed_witness :
  exists body t',
    separate_audio Sample.configured Sample.pro_request [] = (Returned body, t') /\
    Forall (fun f => forall r, OutputFile.url f = Some r ->
                               endswith "?" r = false)
      (SeparationResponse.output_files body).
Proof.
  destruct (separate_audio Sample.configured Sample.pro_request [])
    as [r t'] eqn:Hrun.
  destruct r as [body|code detail]; [|vm_compute in Hrun; discriminate].
  destruct (response_entries_are_well_formed Sample.configured
              Sample.pro_request [] t' body Hrun) as [_ Hall].
  exists body, t'. split; [reflexivity|].
  eapply Forall_impl; [|exact Hall]. intros f [_ H]. exact H.
Defined.
